(** * useSessionStorage: a session-storage backed state hook

    Shallow embedding of
    [packages/usehooks-ts/src/useSessionStorage/useSessionStorage.ts].

    The hook keeps a React state cell ([storedValue]) in step with one key of
    [window.sessionStorage].  Its five closures -- [serializer],
    [deserializer], [readValue], [setValue] and [handleStorageChange] -- and
    the mount effect are translated below as computations in a small
    state-and-exception monad; the browser (window, storage area, console,
    event dispatch) is the state they run in. *)

From stdpp Require Import base strings list gmap pretty.
From Stdlib Require Import ZArith Ascii.

Local Open Scope string_scope.
Local Open Scope Z_scope.
Local Set Warnings "-register-all".

(** ** JavaScript values

    The type parameter [T] of the hook is erased at run time; the closures
    inspect the value dynamically ([instanceof Map], [instanceof Set]).  [Value]
    is the universe of data values they may meet.  Numbers are the
    integer-valued ones (printed in plain decimal); strings are sequences of
    code units below 256.  A [Map] keeps its entries and a [Set] its elements
    in insertion order, as the iteration protocol yields them. *)
Inductive Value : Type :=
  | VUndefined
  | VNull
  | VBool (b : bool)
  | VNum (n : Z)
  | VStr (s : string)
  | VArr (xs : list Value)
  | VObj (props : list (string * Value))
  | VMap (entries : list (Value * Value))
  | VSet (elems : list Value).

(** The double-quote character, code unit 34. *)
Definition DQ : ascii := "034"%char.

Fixpoint join (sep : string) (parts : list string) : string :=
  match parts with
  | [] => ""
  | [p] => p
  | p :: rest => p +:+ sep +:+ join sep rest
  end.

(** [ToString] of the language: used by [Object.fromEntries] to turn a map
    key into a property key, and by [Storage.setItem] on its arguments. *)
Fixpoint ToString (v : Value) : string :=
  match v with
  | VUndefined => "undefined"
  | VNull => "null"
  | VBool true => "true"
  | VBool false => "false"
  | VNum n => pretty n
  | VStr s => s
  | VArr xs =>
      join "," (List.map (fun x => match x with
                                   | VUndefined | VNull => ""
                                   | _ => ToString x
                                   end) xs)
  | VObj _ => "[object Object]"
  | VMap _ => "[object Map]"
  | VSet _ => "[object Set]"
  end.

(** *** Ordinary objects: own properties in [OrdinaryOwnPropertyKeys] order

    Array-index keys come first, ascending; the other string keys follow in
    creation order. *)
Definition is_digit (c : ascii) : bool :=
  let n := N_of_ascii c in ((48 <=? n) && (n <=? 57))%N.

Fixpoint digits_value (s : string) (acc : N) : option N :=
  match s with
  | EmptyString => Some acc
  | String c s' =>
      if is_digit c
      then digits_value s' (acc * 10 + (N_of_ascii c - 48))%N
      else None
  end.

Definition array_index (s : string) : option N :=
  match s with
  | EmptyString => None
  | _ =>
      match digits_value s 0%N with
      | Some n =>
          if (String.eqb (pretty n) s && (n <? 4294967295)%N)%bool
          then Some n else None
      | None => None
      end
  end.

Definition has_property (k : string) (props : list (string * Value)) : bool :=
  existsb (fun p => String.eqb k (fst p)) props.

Fixpoint obj_replace (k : string) (v : Value) (props : list (string * Value))
  : list (string * Value) :=
  match props with
  | [] => []
  | (k', v') :: rest =>
      if String.eqb k k' then (k', v) :: rest
      else (k', v') :: obj_replace k v rest
  end.

Fixpoint obj_insert_index (n : N) (k : string) (v : Value)
    (props : list (string * Value)) : list (string * Value) :=
  match props with
  | [] => [(k, v)]
  | (k', v') :: rest =>
      match array_index k' with
      | Some m =>
          if (m <? n)%N then (k', v') :: obj_insert_index n k v rest
          else (k, v) :: props
      | None => (k, v) :: props
      end
  end.

Definition CreateDataProperty (props : list (string * Value))
    (k : string) (v : Value) : list (string * Value) :=
  if has_property k props then obj_replace k v props
  else match array_index k with
       | Some n => obj_insert_index n k v props
       | None => props ++ [(k, v)]
       end.

(** [Object.fromEntries(map)]: one [CreateDataProperty] per entry, the key
    coerced to a property key. *)
Definition Object_fromEntries (entries : list (Value * Value)) : Value :=
  VObj (fold_left (fun o e => CreateDataProperty o (ToString (fst e)) (snd e))
          entries []).

(** [Array.from(set)]. *)
Definition Array_from (elems : list Value) : Value := VArr elems.

(** ** Completions *)
Inductive Exn : Type :=
  | ReferenceError      (* [window] is not defined *)
  | SecurityError       (* the storage area may not be accessed *)
  | QuotaExceededError  (* the storage area refuses the new value *)
  | SyntaxError         (* [JSON.parse] on malformed text *)
  | Thrown (what : string). (* raised by a caller-supplied function *)

Inductive Completion (A : Type) : Type :=
  | Normal (a : A)
  | Throw (e : Exn).
Arguments Normal {A} a.
Arguments Throw {A} e.

(** ** The platform's JSON object

    [JSON.stringify] answers [undefined] (here [None]) on values that have no
    JSON text.  The hook is verified against any implementation; [MiniJSON]
    below is an executable one. *)
Class JSON := {
  JSON_parse : string -> Completion Value;
  JSON_stringify : Value -> Completion (option string)
}.

(** ** The browser

    [window.sessionStorage] is a string-to-string map.  Reaching the storage
    area throws a [SecurityError] when the page may not use it; [setItem]
    throws a [QuotaExceededError] when the area refuses the resulting
    contents, except that storing the value a key already has does nothing. *)
Record Storage := {
  items : gmap string string;
  access_denied : bool;
  admits : gmap string string -> bool
}.

Inductive Channel := NativeStorage | SessionStorageTopic.

(** What a listener sees of a [StorageEvent] or [CustomEvent]: its [key]
    field, [None] when the field is [null] or missing. *)
Record Event := {
  ev_type : Channel;
  ev_key : option string
}.

Record Window := {
  sessionStorage : Storage;
  dispatched : list Event      (* events handed to [window.dispatchEvent] *)
}.

Inductive LogEntry :=
  | WarnNotClient (key : string)         (* line 124 *)
  | WarnSetting (key : string) (e : Exn) (* line 142 *)
  | WarnReading (key : string) (e : Exn) (* line 114 *)
  | ErrorParsing (e : Exn).              (* line 90 *)

(** The state the hook's closures run in.  [window = None] is the server:
    [typeof window === 'undefined'].  [clock] counts the evaluations of an
    [initialValue] producer, [parse_calls] records the arguments of
    [JSON.parse], [storedValue] is the React state cell of line 52. *)
Record State := {
  window : option Window;
  console : list LogEntry;
  clock : nat;
  parse_calls : list string;
  storedValue : Value
}.

Definition with_window (w : option Window) (st : State) : State :=
  {| window := w; console := console st; clock := clock st;
     parse_calls := parse_calls st; storedValue := storedValue st |}.
Definition with_console (c : list LogEntry) (st : State) : State :=
  {| window := window st; console := c; clock := clock st;
     parse_calls := parse_calls st; storedValue := storedValue st |}.
Definition with_clock (n : nat) (st : State) : State :=
  {| window := window st; console := console st; clock := n;
     parse_calls := parse_calls st; storedValue := storedValue st |}.
Definition with_parse_calls (l : list string) (st : State) : State :=
  {| window := window st; console := console st; clock := clock st;
     parse_calls := l; storedValue := storedValue st |}.
Definition with_storedValue (v : Value) (st : State) : State :=
  {| window := window st; console := console st; clock := clock st;
     parse_calls := parse_calls st; storedValue := v |}.

(** ** Effects: state passing with exceptions

    A thrown exception keeps the state changes made before it. *)
Definition Eff (A : Type) : Type := State -> Completion A * State.

Definition ret {A} (a : A) : Eff A := fun st => (Normal a, st).
Definition throw {A} (e : Exn) : Eff A := fun st => (Throw e, st).
Definition bind {A B} (m : Eff A) (k : A -> Eff B) : Eff B :=
  fun st => match m st with
            | (Normal a, st') => k a st'
            | (Throw e, st') => (Throw e, st')
            end.
Definition try_catch {A} (body : Eff A) (handler : Exn -> Eff A) : Eff A :=
  fun st => match body st with
            | (Normal a, st') => (Normal a, st')
            | (Throw e, st') => handler e st'
            end.
Definition lift {A} (c : Completion A) : Eff A := fun st => (c, st).

Declare Scope eff_scope.
Delimit Scope eff_scope with eff.
Notation "x <- m ;; k" := (bind m (fun x => k))
  (at level 100, m at next level, right associativity) : eff_scope.
Notation "m ;; k" := (bind m (fun _ => k))
  (at level 100, right associativity) : eff_scope.
Local Open Scope eff_scope.

Definition console_log (entry : LogEntry) : Eff unit :=
  fun st => (Normal tt, with_console (console st ++ [entry]) st).

(** [const IS_SERVER = typeof window === 'undefined'] (line 32).  The
    constant is computed when the module loads; a window neither appears nor
    disappears afterwards, so it is read off the state. *)
Definition IS_SERVER : Eff bool :=
  fun st => (Normal (if window st is Some _ then false else true), st).

(** Evaluating the expression [window.sessionStorage]: a [ReferenceError]
    without a window, a [SecurityError] when access is denied.  The storage
    area is a shared mutable object; the reference obtained is the field of
    the state, on which [getItem] and [setItem] then act. *)
Definition window_sessionStorage : Eff unit :=
  fun st => match window st with
            | None => (Throw ReferenceError, st)
            | Some w =>
                if access_denied (sessionStorage w)
                then (Throw SecurityError, st)
                else (Normal tt, st)
            end.

Definition Storage_getItem (key : string) : Eff (option string) :=
  fun st => match window st with
            | None => (Throw ReferenceError, st)
            | Some w => (Normal (items (sessionStorage w) !! key), st)
            end.

Definition store (key text : string) (area : Storage) : Storage :=
  {| items := <[key := text]> (items area);
     access_denied := access_denied area;
     admits := admits area |}.

Definition Storage_setItem (key text : string) : Eff unit :=
  fun st =>
    match window st with
    | None => (Throw ReferenceError, st)
    | Some w =>
        let area := sessionStorage w in
        if decide (items area !! key = Some text) then (Normal tt, st)
        else if admits area (<[key := text]> (items area))
        then (Normal tt,
              with_window (Some {| sessionStorage := store key text area;
                                   dispatched := dispatched w |}) st)
        else (Throw QuotaExceededError, st)
    end.

(** [window.dispatchEvent(event)]. *)
Definition window_dispatchEvent (event : Event) : Eff unit :=
  fun st =>
    match window st with
    | None => (Throw ReferenceError, st)
    | Some w =>
        (Normal tt,
         with_window (Some {| sessionStorage := sessionStorage w;
                              dispatched := dispatched w ++ [event] |}) st)
    end.

Definition setStoredValue (v : Value) : Eff unit :=
  fun st => (Normal tt, with_storedValue v st).

(** ** The hook's arguments *)

(** [initialValue: T | (() => T)].  A producer is run afresh at every use
    and, as its type says, returns a [T]; [f n] is what its evaluation
    returns when [n] evaluations went before, so that a producer may give a
    different value each time. *)
Inductive InitialValue :=
  | InitValue (v : Value)
  | InitProducer (f : nat -> Value).

(** [Options<T>]: both fields optional; a supplied function may throw. *)
Record Options := {
  opt_serializer : option (Value -> Completion string);
  opt_deserializer : option (string -> Completion Value)
}.

(** [SetStateAction<T>]: a value, or an updater of the current value. *)
Inductive SetStateAction :=
  | NewValue (v : Value)
  | Updater (f : Value -> Completion Value).

Record Hook := {
  key : string;
  initialValue : InitialValue;
  options : Options
}.

(** [initialValue instanceof Function ? initialValue() : initialValue]
    (lines 84 and 103). *)
Definition evalInitialValue (init : InitialValue) : Eff Value :=
  match init with
  | InitValue v => ret v
  | InitProducer f =>
      fun st => (Normal (f (clock st)), with_clock (S (clock st)) st)
  end.

(** What the platform does with an argument that should be a string:
    [undefined] becomes the text ["undefined"]. *)
Definition string_argument (s : option string) : string :=
  match s with
  | Some text => text
  | None => ToString VUndefined
  end.

Section WithJSON.
Context {J : JSON}.

(** Lines 54-71. *)
Definition serializer (options : Options) (value : Value)
  : Completion (option string) :=
  match opt_serializer options with
  | Some custom =>
      match custom value with
      | Normal text => Normal (Some text)
      | Throw e => Throw e
      end
  | None =>
      match value with
      | VMap entries => JSON_stringify (Object_fromEntries entries)
      | VSet elems => JSON_stringify (Array_from elems)
      | _ => JSON_stringify value
      end
  end.

Definition call_JSON_parse (text : string) : Eff Value :=
  fun st => (JSON_parse text,
             with_parse_calls (parse_calls st ++ [text]) st).

(** Lines 73-97. *)
Definition deserializer (h : Hook) (value : string) : Eff Value :=
  match opt_deserializer (options h) with
  | Some custom => lift (custom value)
  | None =>
      if String.eqb value "undefined" then ret VUndefined
      else
        defaultValue <- evalInitialValue (initialValue h) ;;
        try_catch
          (call_JSON_parse value)
          (fun error => console_log (ErrorParsing error) ;; ret defaultValue)
  end.

(** Lines 101-117.  [raw ? ... : ...] takes the second branch for [null] and
    for the empty string. *)
Definition readValue (h : Hook) : Eff Value :=
  initialValueToUse <- evalInitialValue (initialValue h) ;;
  server <- IS_SERVER ;;
  if server : bool then ret initialValueToUse
  else
    try_catch
      (window_sessionStorage ;;
       raw <- Storage_getItem (key h) ;;
       match raw with
       | Some (String c rest) => deserializer h (String c rest)
       | Some EmptyString | None => ret initialValueToUse
       end)
      (fun error =>
         console_log (WarnReading (key h) error) ;; ret initialValueToUse).

(** Line 131: [value instanceof Function ? value(readValue()) : value]. *)
Definition resolveAction (h : Hook) (value : SetStateAction) : Eff Value :=
  match value with
  | Updater f => prev <- readValue h ;; lift (f prev)
  | NewValue v => ret v
  end.

(** Line 134: [window.sessionStorage.setItem(key, serializer(newValue))]; the
    storage area is reached before the argument is computed. *)
Definition persist (h : Hook) (newValue : Value) : Eff unit :=
  window_sessionStorage ;;
  text <- lift (serializer (options h) newValue) ;;
  Storage_setItem (key h) (string_argument text).

(** Lines 123-127. *)
Definition warnIfServer (h : Hook) : Eff unit :=
  server <- IS_SERVER ;;
  if server : bool then console_log (WarnNotClient (key h)) else ret tt.

Definition changeEvent (h : Hook) : Event :=
  {| ev_type := SessionStorageTopic; ev_key := Some (key h) |}.

(** Lines 121-144. *)
Definition setValue (h : Hook) (value : SetStateAction) : Eff unit :=
  warnIfServer h ;;
  try_catch
    (newValue <- resolveAction h value ;;
     persist h newValue ;;
     setStoredValue newValue ;;
     window_dispatchEvent (changeEvent h))
    (fun error => console_log (WarnSetting (key h) error)).

(** Lines 146-149: the effect run on mount and whenever [key] changes. *)
Definition keyEffect (h : Hook) : Eff unit :=
  v <- readValue h ;; setStoredValue v.

(** Lines 151-159.  [event?.key && event.key !== key]: the first conjunct is
    falsy for a missing, [null] or empty key. *)
Definition handleStorageChange (h : Hook) (event : Event) : Eff unit :=
  match ev_key event with
  | Some (String c rest) =>
      if negb (String.eqb (String c rest) (key h)) then ret tt
      else v <- readValue h ;; setStoredValue v
  | Some EmptyString | None => v <- readValue h ;; setStoredValue v
  end.

End WithJSON.

(** Modelled from the spec: [useEventListener] (imported at line 10, its
    source is not part of this development).  Section 4.1: the instance
    subscribes to the custom notification channel, which "fires for every
    write including same-context"; section 2: "any subscriber (including the
    originator) reacts to notifications by re-reading".  Dispatch is
    synchronous, so a write by a mounted instance is [setValue] followed by
    the instance's own handler on each event the call published. *)
Fixpoint deliver `{JSON} (h : Hook) (events : list Event) : Eff unit :=
  match events with
  | [] => ret tt
  | e :: rest => handleStorageChange h e ;; deliver h rest
  end.

Definition published (st : State) : list Event :=
  match window st with
  | Some w => dispatched w
  | None => []
  end.

Definition write `{JSON} (h : Hook) (value : SetStateAction) : Eff unit :=
  fun st =>
    match setValue h value st with
    | (Normal _, st') =>
        deliver h (drop (length (published st)) (published st')) st'
    | (Throw e, st') => (Throw e, st')
    end.

(** ** MiniJSON: an executable [JSON] for integer-valued data

    [stringify] follows [SerializeJSONProperty]; [parse] is a recursive-descent
    reader of the JSON grammar.  Number literals with a fraction or an
    exponent, and [\u] escapes above 255, denote values outside [Value] and
    are refused; on texts without them MiniJSON is meant to read what the
    platform reads. *)
Module MiniJSON.

Definition hex_digit (n : N) : ascii :=
  ascii_of_N (if (n <? 10)%N then 48 + n else 87 + n)%N.

Definition quote_char (c : ascii) : string :=
  let n := N_of_ascii c in
  if Ascii.eqb c DQ then String "\" (String DQ "")
  else if Ascii.eqb c "\" then "\\"
  else if (n =? 8)%N then "\b"
  else if (n =? 12)%N then "\f"
  else if (n =? 10)%N then "\n"
  else if (n =? 13)%N then "\r"
  else if (n =? 9)%N then "\t"
  else if (n <? 32)%N
       then "\u00" +:+ String (hex_digit (n / 16)) (String (hex_digit (n mod 16)) "")
  else String c "".

Fixpoint quote_body (s : string) : string :=
  match s with
  | EmptyString => ""
  | String c rest => quote_char c +:+ quote_body rest
  end.

Definition QuoteJSONString (s : string) : string :=
  String DQ (quote_body s +:+ String DQ "").

Fixpoint SerializeJSONProperty (v : Value) : option string :=
  match v with
  | VUndefined => None
  | VNull => Some "null"
  | VBool true => Some "true"
  | VBool false => Some "false"
  | VNum n => Some (pretty n)
  | VStr s => Some (QuoteJSONString s)
  | VArr xs =>
      Some ("[" +:+
            join "," (List.map (fun x => match SerializeJSONProperty x with
                                         | Some text => text
                                         | None => "null"
                                         end) xs) +:+ "]")
  | VObj props =>
      Some ("{" +:+
            join ","
              (List.flat_map
                 (fun p => match SerializeJSONProperty (snd p) with
                           | Some text => [QuoteJSONString (fst p) +:+ ":" +:+ text]
                           | None => []
                           end) props) +:+ "}")
  | VMap _ | VSet _ => Some "{}"
  end.

Definition stringify (v : Value) : Completion (option string) :=
  Normal (SerializeJSONProperty v).

Definition is_ws (c : ascii) : bool :=
  let n := N_of_ascii c in
  ((n =? 32) || (n =? 9) || (n =? 10) || (n =? 13))%N.

Fixpoint skip_ws (s : string) : string :=
  match s with
  | String c rest => if is_ws c then skip_ws rest else s
  | EmptyString => s
  end.

Definition hex_value (c : ascii) : option N :=
  let n := N_of_ascii c in
  if ((48 <=? n) && (n <=? 57))%N then Some (n - 48)%N
  else if ((97 <=? n) && (n <=? 102))%N then Some (n - 87)%N
  else if ((65 <=? n) && (n <=? 70))%N then Some (n - 55)%N
  else None.

Definition unicode_escape (a b c d : ascii) : option ascii :=
  match hex_value a, hex_value b, hex_value c, hex_value d with
  | Some 0%N, Some 0%N, Some x, Some y => Some (ascii_of_N (16 * x + y))
  | _, _, _, _ => None
  end.

Definition simple_escape (e : ascii) : option ascii :=
  if Ascii.eqb e DQ then Some DQ
  else if Ascii.eqb e "\" then Some "\"%char
  else if Ascii.eqb e "/" then Some "/"%char
  else if Ascii.eqb e "b" then Some (ascii_of_N 8)
  else if Ascii.eqb e "f" then Some (ascii_of_N 12)
  else if Ascii.eqb e "n" then Some (ascii_of_N 10)
  else if Ascii.eqb e "r" then Some (ascii_of_N 13)
  else if Ascii.eqb e "t" then Some (ascii_of_N 9)
  else None.

(** The characters of a string literal after its opening quote, and what
    follows the closing quote. *)
Fixpoint read_string (s : string) : option (string * string) :=
  match s with
  | EmptyString => None
  | String c rest =>
      if Ascii.eqb c DQ then Some ("", rest)
      else if Ascii.eqb c "\" then
        match rest with
        | String "u" (String h1 (String h2 (String h3 (String h4 rest')))) =>
            match unicode_escape h1 h2 h3 h4, read_string rest' with
            | Some x, Some (body, after) => Some (String x body, after)
            | _, _ => None
            end
        | String e rest' =>
            match simple_escape e, read_string rest' with
            | Some x, Some (body, after) => Some (String x body, after)
            | _, _ => None
            end
        | EmptyString => None
        end
      else if (N_of_ascii c <? 32)%N then None
      else match read_string rest with
           | Some (body, after) => Some (String c body, after)
           | None => None
           end
  end.

Fixpoint read_digits (s : string) : string * string :=
  match s with
  | String c rest =>
      if is_digit c
      then let '(ds, after) := read_digits rest in (String c ds, after)
      else ("", s)
  | EmptyString => ("", s)
  end.

Definition starts_fraction_or_exponent (s : string) : bool :=
  match s with
  | String c _ => (Ascii.eqb c "." || Ascii.eqb c "e" || Ascii.eqb c "E")%bool
  | EmptyString => false
  end.

(** An unsigned integer literal: ["0"] or a digit string without leading
    zero. *)
Definition read_natural (s : string) : option (N * string) :=
  let '(ds, after) := read_digits s in
  match ds with
  | EmptyString => None
  | String "0" (String _ _) => None
  | _ =>
      if starts_fraction_or_exponent after then None
      else match digits_value ds 0%N with
           | Some n => Some (n, after)
           | None => None
           end
  end.

Fixpoint strip_prefix (word s : string) : option string :=
  match word, s with
  | EmptyString, _ => Some s
  | String c word', String d s' =>
      if Ascii.eqb c d then strip_prefix word' s' else None
  | String _ _, EmptyString => None
  end.

Definition read_literal (word : string) (v : Value) (s : string)
  : option (Value * string) :=
  match strip_prefix word s with
  | Some after => Some (v, after)
  | None => None
  end.

(** The value at the head of [s], and the rest of the text.  [fuel] bounds
    the number of nested and successive sub-values. *)
Fixpoint read_value (fuel : nat) (s : string) : option (Value * string) :=
  match fuel with
  | O => None
  | S fuel' =>
      match skip_ws s with
      | EmptyString => None
      | String c rest =>
          if Ascii.eqb c "[" then
            match skip_ws rest with
            | EmptyString => None
            | String d after =>
                if Ascii.eqb d "]" then Some (VArr [], after)
                else match read_elements fuel' rest with
                     | Some (xs, after') => Some (VArr xs, after')
                     | None => None
                     end
            end
          else if Ascii.eqb c "{" then
            match skip_ws rest with
            | EmptyString => None
            | String d after =>
                if Ascii.eqb d "}" then Some (VObj [], after)
                else match read_members fuel' rest [] with
                     | Some (props, after') => Some (VObj props, after')
                     | None => None
                     end
            end
          else if Ascii.eqb c DQ then
            match read_string rest with
            | Some (body, after) => Some (VStr body, after)
            | None => None
            end
          else if Ascii.eqb c "-" then
            match read_natural rest with
            | Some (n, after) => Some (VNum (- Z.of_N n), after)
            | None => None
            end
          else if is_digit c then
            match read_natural (String c rest) with
            | Some (n, after) => Some (VNum (Z.of_N n), after)
            | None => None
            end
          else if Ascii.eqb c "t" then read_literal "true" (VBool true) (String c rest)
          else if Ascii.eqb c "f" then read_literal "false" (VBool false) (String c rest)
          else if Ascii.eqb c "n" then read_literal "null" VNull (String c rest)
          else None
      end
  end
with read_elements (fuel : nat) (s : string) : option (list Value * string) :=
  match fuel with
  | O => None
  | S fuel' =>
      match read_value fuel' s with
      | Some (x, after) =>
          match skip_ws after with
          | EmptyString => None
          | String d more =>
              if Ascii.eqb d "," then
                match read_elements fuel' more with
                | Some (xs, after') => Some (x :: xs, after')
                | None => None
                end
              else if Ascii.eqb d "]" then Some ([x], more)
              else None
          end
      | None => None
      end
  end
with read_members (fuel : nat) (s : string) (props : list (string * Value))
  : option (list (string * Value) * string) :=
  match fuel with
  | O => None
  | S fuel' =>
      match skip_ws s with
      | EmptyString => None
      | String c rest =>
          if Ascii.eqb c DQ then
            match read_string rest with
            | Some (name, after) =>
                match skip_ws after with
                | EmptyString => None
                | String d after' =>
                    if Ascii.eqb d ":" then
                      match read_value fuel' after' with
                      | Some (x, after'') =>
                          let props' := CreateDataProperty props name x in
                          match skip_ws after'' with
                          | EmptyString => None
                          | String e more =>
                              if Ascii.eqb e "," then read_members fuel' more props'
                              else if Ascii.eqb e "}" then Some (props', more)
                              else None
                          end
                      | None => None
                      end
                    else None
                end
            | None => None
            end
          else None
      end
  end.

Definition parse (text : string) : Completion Value :=
  match read_value (2 * String.length text + 2) text with
  | Some (v, after) =>
      match skip_ws after with
      | EmptyString => Normal v
      | String _ _ => Throw SyntaxError
      end
  | None => Throw SyntaxError
  end.

(** *** JSON data and its text

    The values [parse] gets back from [stringify]: no [undefined], [Map] or
    [Set] inside, and objects whose keys are distinct and none an array index
    (so that the order of the properties is the order written). *)

Fixpoint all_digits (s : string) : bool :=
  match s with
  | EmptyString => true
  | String c s' => is_digit c && all_digits s'
  end.

(** What may follow a number literal. *)
Definition delimited (rest : string) : bool :=
  match rest with
  | EmptyString => true
  | String c _ =>
      negb (is_digit c) && negb (Ascii.eqb c ".") && negb (Ascii.eqb c "e")
      && negb (Ascii.eqb c "E")
  end.

Definition plain_keys (ks : list string) : bool :=
  bool_decide (NoDup ks) && forallb (fun k => negb (bool_decide (is_Some (array_index k)))) ks.

Fixpoint json_data (v : Value) : bool :=
  match v with
  | VNull | VBool _ | VNum _ | VStr _ => true
  | VArr xs => forallb json_data xs
  | VObj props =>
      forallb (fun p => json_data (snd p)) props && plain_keys (List.map fst props)
  | VUndefined | VMap _ | VSet _ => false
  end.

Definition json_text (v : Value) : string :=
  match SerializeJSONProperty v with
  | Some text => text
  | None => "null"
  end.

Fixpoint weight (v : Value) : nat :=
  match v with
  | VArr xs => S (list_sum (List.map (fun x => S (weight x)) xs))
  | VObj props => S (list_sum (List.map (fun p => S (weight (snd p))) props))
  | _ => 1
  end.

Definition member_text (p : string * Value) : string :=
  QuoteJSONString (fst p) +:+ ":" +:+ json_text (snd p).

(** The elements of an array, then [k]. *)
Fixpoint elements_then (xs : list Value) (k : string) : string :=
  match xs with
  | [] => k
  | [x] => json_text x +:+ k
  | x :: rest => json_text x +:+ "," +:+ elements_then rest k
  end.

Fixpoint members_then (props : list (string * Value)) (k : string) : string :=
  match props with
  | [] => k
  | [p] => member_text p +:+ k
  | p :: rest => member_text p +:+ "," +:+ members_then rest k
  end.

(** The first character of a JSON text says which kind of value follows. *)
Definition value_start (c : ascii) : bool :=
  (Ascii.eqb c "[" || Ascii.eqb c "{" || Ascii.eqb c DQ || Ascii.eqb c "-"
   || is_digit c || Ascii.eqb c "t" || Ascii.eqb c "f" || Ascii.eqb c "n")%bool.

Definition elements_weight (xs : list Value) : nat :=
  list_sum (List.map (fun x => S (weight x)) xs).
Definition members_weight (props : list (string * Value)) : nat :=
  list_sum (List.map (fun p => S (weight (snd p))) props).

Definition reads_values (fuel : nat) : Prop :=
  forall v k, json_data v = true -> (weight v <= fuel)%nat ->
    delimited k = true ->
    read_value fuel (json_text v +:+ k) = Some (v, k).
Definition reads_elements (fuel : nat) : Prop :=
  forall xs k, xs <> [] -> forallb json_data xs = true ->
    (elements_weight xs <= fuel)%nat ->
    read_elements fuel (elements_then xs (String "]" k)) = Some (xs, k).
Definition reads_members (fuel : nat) : Prop :=
  forall props acc k, props <> [] ->
    forallb (fun p => json_data (snd p)) props = true ->
    NoDup (List.map fst acc ++ List.map fst props) ->
    Forall (fun key => array_index key = None) (List.map fst props) ->
    (members_weight props <= fuel)%nat ->
    read_members fuel (members_then props (String "}" k)) acc
    = Some ((acc ++ props)%list, k).

End MiniJSON.

#[export] Instance mini_json : JSON :=
  {| JSON_parse := MiniJSON.parse; JSON_stringify := MiniJSON.stringify |}.


(** ** Vocabulary of the statements *)

(** The codec's decoding of a stored text, before any fallback: the custom
    deserializer when there is one, else the ["undefined"] test of line 79
    and [JSON.parse]. *)
Definition decode `{JSON} (o : Options) (text : string) : Completion Value :=
  match opt_deserializer o with
  | Some custom => custom text
  | None =>
      if String.eqb text "undefined" then Normal VUndefined
      else JSON_parse text
  end.

(** [v] is what an evaluation of [init] made between [st] and [st'] gave. *)
Definition fresh_evaluation (init : InitialValue) (st st' : State) (v : Value)
  : Prop :=
  match init with
  | InitValue x => v = x
  | InitProducer f => exists n, (clock st <= n < clock st')%nat /\ v = f n
  end.

(** The raw text the storage area holds for a key, when it can be read. *)
Definition stored_text (st : State) (k : string) : option string :=
  match window st with
  | Some w =>
      if access_denied (sessionStorage w) then None
      else items (sessionStorage w) !! k
  | None => None
  end.

(** Lines 131-134: the try block up to and including the store set. *)
Definition attempt `{JSON} (h : Hook) (value : SetStateAction) : Eff Value :=
  newValue <- resolveAction h value ;; persist h newValue ;; ret newValue.

(** [setItem] goes through: the key already holds the text, or the area
    admits the contents that result. *)
Definition store_accepts (area : Storage) (k text : string) : Prop :=
  items area !! k = Some text \/ admits area (<[k := text]> (items area)) = true.

Definition after_store (k text : string) (w : Window) : Window :=
  {| sessionStorage := store k text (sessionStorage w);
     dispatched := dispatched w |}.

Definition after_dispatch (e : Event) (w : Window) : Window :=
  {| sessionStorage := sessionStorage w;
     dispatched := (dispatched w ++ [e])%list |}.

(** The state with another log of dispatched events. *)
Definition redispatch (events : list Event) (w : Window) (st : State) : State :=
  with_window (Some {| sessionStorage := sessionStorage w;
                       dispatched := events |}) st.

Definition carry {A} (f : State -> State) (r : Completion A * State)
  : Completion A * State := (fst r, f (snd r)).

(** The cached value of [st] follows the storage area of [st]: it is the
    decoding of the text held for the key when there is a non-empty one that
    decodes, and otherwise a value of [initialValue] evaluated since [st0]. *)
Definition in_step `{JSON} (h : Hook) (st0 st : State) : Prop :=
  match stored_text st (key h) with
  | Some (String c rest) =>
      match decode (options h) (String c rest) with
      | Normal r => storedValue st = r
      | Throw _ => fresh_evaluation (initialValue h) st0 st (storedValue st)
      end
  | Some EmptyString | None =>
      fresh_evaluation (initialValue h) st0 st (storedValue st)
  end.

(** The handler of lines 151-159 goes on to re-read. *)
Definition rereads (h : Hook) (event : Event) : Prop :=
  ev_key event = None \/ ev_key event = Some "" \/ ev_key event = Some (key h).

Definition default_options : Options :=
  {| opt_serializer := None; opt_deserializer := None |}.

(** A browser tab with an empty, unrestricted storage area. *)
Definition open_storage : Storage :=
  {| items := ∅; access_denied := false; admits := fun _ => true |}.

Definition client (cached : Value) (area : Storage) : State :=
  {| window := Some {| sessionStorage := area; dispatched := [] |};
     console := []; clock := 0; parse_calls := []; storedValue := cached |}.

Definition server (cached : Value) : State :=
  {| window := None; console := []; clock := 0; parse_calls := [];
     storedValue := cached |}.

(** ** Sample hooks and browsers *)

(** [useSessionStorage("k", null)]. *)
Definition plain_hook : Hook :=
  {| key := "k"; initialValue := InitValue VNull; options := default_options |}.

(** [useSessionStorage("k", () => n++)]: a producer whose result changes
    from one evaluation to the next. *)
Definition counting_hook : Hook :=
  {| key := "k";
     initialValue := InitProducer (fun n => VNum (Z.of_nat n));
     options := default_options |}.

(** A codec for strings that stores them verbatim:
    [{ serializer: s => s, deserializer: s => s }]. *)
Definition verbatim : Options :=
  {| opt_serializer :=
       Some (fun v => match v with
                      | VStr s => Normal s
                      | _ => Throw (Thrown "not a string")
                      end);
     opt_deserializer := Some (fun s => Normal (VStr s)) |}.

Definition verbatim_hook : Hook :=
  {| key := "k"; initialValue := InitValue (VStr "init"); options := verbatim |}.

(** A storage area holding one entry. *)
Definition holding (k text : string) : Storage :=
  {| items := {[ k := text ]}; access_denied := false; admits := fun _ => true |}.

(** A storage area whose quota is used up. *)
Definition full_storage : Storage :=
  {| items := ∅; access_denied := false; admits := fun _ => false |}.

Definition two_numbers : Value := VSet [VNum 1; VNum 2].
Definition one_entry : Value := VMap [(VStr "a", VNum 1)].

Definition mixed_array : Value := VArr [VNum 1; VBool true; VNull].

(** A [storage] event for [storage.setItem("", ...)]: its key is the empty
    string. *)
Definition empty_key_event : Event :=
  {| ev_type := NativeStorage; ev_key := Some "" |}.

Definition other_key_event : Event :=
  {| ev_type := NativeStorage; ev_key := Some "other" |}.

(** ** Vocabulary of the further properties *)

(** What the [n]-th evaluation of [initialValue] gives, and the state after
    an evaluation. *)
Definition initial_at (init : InitialValue) (n : nat) : Value :=
  match init with
  | InitValue v => v
  | InitProducer f => f n
  end.

Definition tick (init : InitialValue) (st : State) : State :=
  match init with
  | InitValue _ => st
  | InitProducer _ => with_clock (S (clock st)) st
  end.

(** What [readValue] returns, from the number of evaluations made so far and
    the text it finds under the key: the decoding of a non-empty text, or the
    initial value -- evaluated a second time when it is the default
    deserializer that falls back. *)
Definition read_outcome `{JSON} (h : Hook) (n : nat) (found : option string)
  : Value :=
  match found with
  | Some (String c rest) =>
      match decode (options h) (String c rest) with
      | Normal r => r
      | Throw _ =>
          match opt_deserializer (options h) with
          | Some _ => initial_at (initialValue h) n
          | None => initial_at (initialValue h) (S n)
          end
      end
  | Some EmptyString | None => initial_at (initialValue h) n
  end.

(** The read reaches [JSON.parse]: default deserializer, a non-empty text
    other than ["undefined"]. *)
Definition parses (h : Hook) (st : State) : bool :=
  match opt_deserializer (options h), stored_text st (key h) with
  | None, Some (String c rest) => negb (String.eqb (String c rest) "undefined")
  | _, _ => false
  end.

(** What a read writes to the console. *)
Definition read_reports `{JSON} (h : Hook) (st : State) : list LogEntry :=
  match window st with
  | None => []
  | Some w =>
      if access_denied (sessionStorage w)
      then [WarnReading (key h) SecurityError]
      else match items (sessionStorage w) !! key h with
           | Some (String c rest) =>
               match decode (options h) (String c rest) with
               | Normal _ => []
               | Throw e =>
                   match opt_deserializer (options h) with
                   | Some _ => [WarnReading (key h) e]
                   | None => [ErrorParsing e]
                   end
               end
           | Some EmptyString | None => []
           end
  end.

(** The entry of the storage area under a key, whether or not the page may
    read it. *)
Definition slot (st : State) (k : string) : option string :=
  match window st with
  | Some w => items (sessionStorage w) !! k
  | None => None
  end.


(** The same hook bound to another key (the [key] argument changed between
    two renders). *)
Definition rekey (k : string) (h : Hook) : Hook :=
  {| key := k; initialValue := initialValue h; options := options h |}.





(** Line 52: [useState(initialValue)].  On the first render React takes the
    initial state from its argument, running it when it is a function. *)
Definition useState (h : Hook) : Eff unit :=
  v <- evalInitialValue (initialValue h) ;; setStoredValue v.

(** The first render followed by the effect of lines 146-149. *)
Definition mount `{JSON} (h : Hook) : Eff unit :=
  useState h ;; keyEffect h.

(** A sample updater: [n => n + 1] on numbers, throwing on anything else. *)
Definition increment (v : Value) : Completion Value :=
  match v with
  | VNum n => Normal (VNum (n + 1))
  | _ => Throw (Thrown "not a number")
  end.

(** * Properties *)

Section Properties.
Context {J : JSON}.

Lemma evalInitialValue_spec init st :
  exists v st', evalInitialValue init st = (Normal v, st') /\
    window st' = window st /\ storedValue st' = storedValue st /\
    console st' = console st /\ parse_calls st' = parse_calls st /\
    (clock st <= clock st')%nat /\
    fresh_evaluation init st st' v.
Proof.
  destruct init as [x | f]; simpl.
  - exists x, st. unfold ret. repeat split; auto.
  - eexists _, _. split; [reflexivity |]. simpl. repeat split; auto.
    exists (clock st). split; [lia | reflexivity].
Qed.

Lemma fresh_evaluation_weaken init st0 st1 st2 st3 v :
  (clock st0 <= clock st1)%nat -> (clock st2 <= clock st3)%nat ->
  fresh_evaluation init st1 st2 v -> fresh_evaluation init st0 st3 v.
Proof.
  intros H01 H23. destruct init as [x | f]; simpl; [auto |].
  intros (n & Hn & ->). exists n. split; [lia | reflexivity].
Qed.


Lemma deserializer_spec (h : Hook) (text : string) (st : State) :
  exists c st',
    deserializer h text st = (c, st') /\
    window st' = window st /\ storedValue st' = storedValue st /\
    (clock st <= clock st')%nat /\
    match decode (options h) text with
    | Normal r => c = Normal r /\ console st' = console st
    | Throw e =>
        match opt_deserializer (options h) with
        | Some _ => c = Throw e /\ st' = st
        | None => exists v, c = Normal v /\
                   fresh_evaluation (initialValue h) st st' v /\
                   console st' = (console st ++ [ErrorParsing e])%list
        end
    end.
Proof.
  unfold deserializer, decode.
  destruct (opt_deserializer (options h)) as [custom |].
  - unfold lift. exists (custom text), st. repeat split; auto.
    destruct (custom text); auto.
  - destruct (String.eqb text "undefined").
    + exists (Normal VUndefined), st. unfold ret. repeat split; auto.
    + unfold bind.
      destruct (evalInitialValue_spec (initialValue h) st)
        as (v0 & st1 & E0 & Hw & Hs & Hc & Hp & Hk & Hf).
      rewrite E0. unfold try_catch, call_JSON_parse.
      destruct (JSON_parse text) as [r | e]; simpl.
      * eexists _, _. split; [reflexivity |]. simpl. repeat split; auto.
      * eexists _, _. split; [reflexivity |]. simpl. repeat split; auto.
        exists v0. repeat split; auto. now rewrite Hc.
Qed.

Lemma readValue_spec (h : Hook) (st : State) :
  exists v st',
    readValue h st = (Normal v, st') /\
    window st' = window st /\ storedValue st' = storedValue st /\
    (clock st <= clock st')%nat /\
    match stored_text st (key h) with
    | Some (String c rest) =>
        match decode (options h) (String c rest) with
        | Normal r => v = r
        | Throw _ => fresh_evaluation (initialValue h) st st' v
        end
    | Some EmptyString | None => fresh_evaluation (initialValue h) st st' v
    end.
Proof.
  unfold readValue, bind.
  destruct (evalInitialValue_spec (initialValue h) st)
    as (v0 & st1 & E0 & Hw & Hs & Hc & Hp & Hk & Hf).
  rewrite E0. unfold IS_SERVER, stored_text. rewrite Hw.
  destruct (window st) as [w |] eqn:Ew; simpl.
  { unfold try_catch, bind, window_sessionStorage. rewrite Hw.
    destruct (access_denied (sessionStorage w)) eqn:Ed.
    { eexists _, _. unfold console_log, ret; simpl. split; [reflexivity |].
      simpl. repeat split; auto. }
    unfold Storage_getItem. rewrite Hw.
    destruct (items (sessionStorage w) !! key h) as [[| c rest] |] eqn:Ei.
    - exists v0, st1. unfold ret. repeat split; auto.
    - destruct (deserializer_spec h (String c rest) st1)
        as (c0 & st2 & E1 & Hw2 & Hs2 & Hk2 & Hd).
      rewrite E1.
      destruct (decode (options h) (String c rest)) as [r | e].
      + destruct Hd as [-> Hc2]. exists r, st2.
        repeat split; auto; try congruence. lia.
      + destruct (opt_deserializer (options h)).
        * destruct Hd as [-> ->]. unfold console_log, ret; simpl.
          eexists _, _. split; [reflexivity |]. simpl. repeat split; auto.
        * destruct Hd as (v & -> & Hf2 & Hc2). exists v, st2.
          repeat split; auto; try congruence; try lia.
          eapply fresh_evaluation_weaken; [| | exact Hf2]; lia.
    - exists v0, st1. unfold ret. repeat split; auto. }
  exists v0, st1. unfold ret. repeat split; auto.
Qed.


Lemma warnIfServer_spec (h : Hook) (st : State) :
  exists st0, warnIfServer h st = (Normal tt, st0) /\
    window st0 = window st /\ storedValue st0 = storedValue st /\
    clock st0 = clock st /\ parse_calls st0 = parse_calls st /\
    console st0 = (console st ++
                   if window st is Some _ then [] else [WarnNotClient (key h)])%list.
Proof.
  unfold warnIfServer, bind, IS_SERVER, console_log, ret.
  destruct (window st) eqn:Ew; eexists; (split; [reflexivity |]); simpl;
    repeat split; auto. symmetry; apply app_nil_r.
Qed.

Lemma resolveAction_frame (h : Hook) (value : SetStateAction) (st : State) :
  exists c st', resolveAction h value st = (c, st') /\
    window st' = window st /\ storedValue st' = storedValue st /\
    (clock st <= clock st')%nat.
Proof.
  destruct value as [v | f]; simpl.
  - exists (Normal v), st. unfold ret. auto.
  - unfold bind.
    destruct (readValue_spec h st) as (v & st' & E & Hw & Hs & Hk & _).
    rewrite E. unfold lift. eauto 6.
Qed.

Lemma persist_throw (h : Hook) (nv : Value) (st st' : State) (e : Exn) :
  persist h nv st = (Throw e, st') -> st' = st.
Proof.
  unfold persist, bind, window_sessionStorage, lift, Storage_setItem.
  destruct (window st) as [w |]; [| congruence].
  destruct (access_denied (sessionStorage w)); [congruence |].
  destruct (serializer (options h) nv) as [text |]; [| congruence].
  repeat case_match; congruence.
Qed.

Lemma persist_normal (h : Hook) (nv : Value) (st st' : State) (u : unit) :
  persist h nv st = (Normal u, st') ->
  exists text,
    serializer (options h) nv = Normal text /\
    stored_text st' (key h) = Some (string_argument text) /\
    published st' = published st /\
    st' = with_window (window st') st.
Proof.
  unfold persist, bind, window_sessionStorage, lift, Storage_setItem,
    stored_text, published.
  destruct (window st) as [w |] eqn:Ew; [| congruence].
  destruct (access_denied (sessionStorage w)) eqn:Ed; [congruence |].
  destruct (serializer (options h) nv) as [text |]; [| congruence].
  rewrite Ew. intros Hrun. exists text. split; [reflexivity |].
  destruct (decide (items (sessionStorage w) !! key h = Some (string_argument text)))
    as [Hsame | Hdiff].
  - injection Hrun as _ <-. rewrite Ew, Ed. repeat split; auto.
    rewrite <- Ew. now destruct st.
  - destruct (admits (sessionStorage w) _); [| congruence].
    injection Hrun as _ <-. simpl. rewrite Ed, lookup_insert_eq.
    repeat split; auto.
Qed.

Lemma setValue_cases (h : Hook) (value : SetStateAction) (st : State) :
  exists st',
    setValue h value st = (Normal tt, st') /\
    (clock st <= clock st')%nat /\
    match attempt h value (snd (warnIfServer h st)) with
    | (Throw e, st1) =>
        st' = with_console (console st1 ++ [WarnSetting (key h) e]) st1 /\
        storedValue st' = storedValue st /\
        window st' = window st
    | (Normal newValue, st1) =>
        storedValue st' = newValue /\
        published st' = (published st ++ [changeEvent h])%list /\
        exists text,
          serializer (options h) newValue = Normal text /\
          stored_text st' (key h) = Some (string_argument text)
    end.
Proof.
  destruct (warnIfServer_spec h st) as (st0 & E0 & Hw0 & Hs0 & Hk0 & _).
  unfold setValue, attempt, bind at 1, try_catch. rewrite E0. simpl.
  unfold bind at 1 4.
  destruct (resolveAction_frame h value st0) as (c & st1 & E1 & Hw1 & Hs1 & Hk1).
  rewrite E1. destruct c as [nv | e].
  2:{ unfold console_log. eexists. split; [reflexivity |]. simpl.
      repeat split; try congruence; try lia. }
  unfold bind.
  destruct (persist h nv st1) as [[u | e] st2] eqn:E2.
  - apply persist_normal in E2 as (text & Hser & Hst & Hpub & Hfr).
    unfold setStoredValue, window_dispatchEvent, ret. simpl.
    assert (exists w2, window st2 = Some w2) as [w2 Ew2].
    { unfold stored_text in Hst. destruct (window st2); [eauto | discriminate]. }
    rewrite Ew2. eexists. split; [reflexivity |]. simpl.
    split; [rewrite Hfr; simpl; lia |].
    split; [reflexivity |]. split.
    + unfold published in *. simpl. rewrite Ew2 in Hpub. rewrite Hpub.
      now rewrite Hw1, Hw0.
    + exists text. split; [exact Hser |].
      unfold stored_text in *. simpl. now rewrite Ew2 in Hst.
  - apply persist_throw in E2 as ->. unfold console_log.
    eexists. split; [reflexivity |]. simpl. repeat split; try congruence; try lia.
Qed.

Lemma store_same (area : Storage) (k text : string) :
  items area !! k = Some text -> store k text area = area.
Proof.
  intros Hsame. unfold store. rewrite (insert_id _ _ _ Hsame). now destruct area.
Qed.

Lemma with_window_same (st : State) (w : Window) :
  window st = Some w ->
  with_window (Some {| sessionStorage := sessionStorage w;
                       dispatched := dispatched w |}) st = st.
Proof. intros Ew. destruct w. simpl. rewrite <- Ew. now destruct st. Qed.

Lemma persist_inv (h : Hook) (nv : Value) (st st' : State) (u : unit) :
  persist h nv st = (Normal u, st') <->
  exists w text,
    window st = Some w /\
    access_denied (sessionStorage w) = false /\
    serializer (options h) nv = Normal text /\
    store_accepts (sessionStorage w) (key h) (string_argument text) /\
    st' = with_window (Some (after_store (key h) (string_argument text) w)) st.
Proof.
  destruct u.
  unfold persist, bind, window_sessionStorage, lift, Storage_setItem,
    store_accepts, after_store.
  split.
  - destruct (window st) as [w |] eqn:Ew; [| congruence].
    destruct (access_denied (sessionStorage w)) eqn:Ed; [congruence |].
    destruct (serializer (options h) nv) as [text |]; [| congruence].
    rewrite Ew. intros Hrun. exists w, text. repeat split; auto.
    + destruct (decide _) as [Hsame | _]; [now left |].
      destruct (admits _ _); [now right | congruence].
    + destruct (decide _) as [Hsame | _].
      * injection Hrun as <-. rewrite (store_same _ _ _ Hsame).
        now rewrite with_window_same.
      * destruct (admits _ _); congruence.
  - intros (w & text & Ew & Ed & Hser & Hacc & ->).
    rewrite Ew, Ed, Hser, Ew.
    destruct (decide _) as [Hsame | Hdiff].
    + rewrite (store_same _ _ _ Hsame). now rewrite with_window_same.
    + destruct Hacc as [? | ->]; [contradiction | reflexivity].
Qed.

Lemma warnIfServer_client (h : Hook) (st : State) (w : Window) :
  window st = Some w -> warnIfServer h st = (Normal tt, st).
Proof.
  intros Ew. unfold warnIfServer, bind, IS_SERVER, ret. now rewrite Ew.
Qed.

Lemma setValue_NewValue_success (h : Hook) (v : Value) (st : State)
    (w : Window) (text : option string) :
  window st = Some w ->
  access_denied (sessionStorage w) = false ->
  serializer (options h) v = Normal text ->
  store_accepts (sessionStorage w) (key h) (string_argument text) ->
  setValue h (NewValue v) st =
  (Normal tt,
   with_window
     (Some (after_dispatch (changeEvent h)
              (after_store (key h) (string_argument text) w)))
     (with_storedValue v st)).
Proof.
  intros Ew Ed Hser Hacc.
  assert (persist h v st =
          (Normal tt,
           with_window (Some (after_store (key h) (string_argument text) w)) st))
    as Hp.
  { apply persist_inv. exists w, text. auto. }
  unfold setValue, bind at 1. rewrite (warnIfServer_client h st w Ew).
  unfold try_catch. simpl. unfold bind at 1, ret at 1.
  unfold bind at 1. rewrite Hp.
  reflexivity.
Qed.



Lemma evalInitialValue_redispatch init events w st :
  evalInitialValue init (redispatch events w st)
  = carry (redispatch events w) (evalInitialValue init st).
Proof. destruct init; reflexivity. Qed.

Lemma deserializer_redispatch (h : Hook) text events w st :
  deserializer h text (redispatch events w st)
  = carry (redispatch events w) (deserializer h text st).
Proof.
  unfold deserializer.
  destruct (opt_deserializer (options h)); [reflexivity |].
  destruct (String.eqb text "undefined"); [reflexivity |].
  unfold bind. rewrite evalInitialValue_redispatch.
  destruct (evalInitialValue (initialValue h) st) as [[v0 | e] st1]; simpl;
    [| reflexivity].
  unfold try_catch, call_JSON_parse. simpl.
  destruct (JSON_parse text); reflexivity.
Qed.

Lemma readValue_redispatch (h : Hook) events w st :
  window st = Some w ->
  readValue h (redispatch events w st)
  = carry (redispatch events w) (readValue h st).
Proof.
  intros Ew. unfold readValue, bind.
  rewrite evalInitialValue_redispatch.
  destruct (evalInitialValue_spec (initialValue h) st)
    as (v0 & st1 & E0 & Hw & _).
  rewrite E0. simpl. rewrite Ew in Hw.
  unfold IS_SERVER. simpl. rewrite Hw.
  unfold try_catch, window_sessionStorage, Storage_getItem. simpl.
  rewrite Hw.
  destruct (access_denied (sessionStorage w)); [reflexivity |].
  simpl. rewrite ?Hw.
  destruct (items (sessionStorage w) !! key h) as [[| c rest] |];
    [reflexivity | | reflexivity].
  rewrite deserializer_redispatch.
  destruct (deserializer h (String c rest) st1) as [[r | e] st2]; reflexivity.
Qed.

Lemma keyEffect_spec (h : Hook) (st : State) :
  exists v st1,
    readValue h st = (Normal v, st1) /\
    keyEffect h st = (Normal tt, with_storedValue v st1) /\
    in_step h st (with_storedValue v st1).
Proof.
  destruct (readValue_spec h st) as (v & st1 & E & Hw & Hs & Hk & Hv).
  exists v, st1. split; [exact E |]. split.
  - unfold keyEffect, bind, setStoredValue. now rewrite E.
  - unfold in_step, stored_text in *. simpl. rewrite Hw.
    destruct (window st) as [w |]; [| exact Hv].
    destruct (access_denied (sessionStorage w)); [exact Hv |].
    destruct (items (sessionStorage w) !! key h) as [[| c rest] |];
      exact Hv.
Qed.

Lemma handleStorageChange_rereads (h : Hook) (event : Event) (st : State) :
  rereads h event -> handleStorageChange h event st = keyEffect h st.
Proof.
  unfold rereads, handleStorageChange, keyEffect.
  intros [-> | [-> | ->]]; try reflexivity.
  destruct (key h) as [| c rest]; [reflexivity |].
  now rewrite String.eqb_refl.
Qed.

Lemma in_step_since (h : Hook) (st0 st1 st : State) :
  (clock st0 <= clock st1)%nat -> in_step h st1 st -> in_step h st0 st.
Proof.
  intros Hk. unfold in_step.
  assert (forall v, fresh_evaluation (initialValue h) st1 st v ->
                    fresh_evaluation (initialValue h) st0 st v) as Hweak.
  { intros v. apply fresh_evaluation_weaken; [exact Hk | lia]. }
  repeat case_match; auto.
Qed.

Lemma stored_text_after_write (h : Hook) (w : Window) (text : string)
    (st : State) :
  access_denied (sessionStorage w) = false ->
  stored_text
    (with_window
       (Some (after_dispatch (changeEvent h) (after_store (key h) text w))) st)
    (key h) = Some text.
Proof.
  intros Ed. unfold stored_text. simpl. rewrite Ed. apply lookup_insert_eq.
Qed.

Lemma readValue_decodes (h : Hook) (st : State) (text : string) (r : Value) :
  stored_text st (key h) = Some text ->
  text <> "" ->
  decode (options h) text = Normal r ->
  fst (readValue h st) = Normal r.
Proof.
  intros Hst Hne Hdec.
  destruct (readValue_spec h st) as (v & st' & E & _ & _ & _ & Hv).
  rewrite E. simpl. rewrite Hst in Hv.
  destruct text as [| c rest]; [contradiction |].
  rewrite Hdec in Hv. now subst.
Qed.

(** C1, as amended (round trip).  When the store set of [write(v)] succeeds,
    the storage area holds the text [serializer(v)] under the key and, that
    text being non-empty, a following [read()] returns its decoding
    [deserializer(serializer(v))].  This is [v] exactly when the codec round
    trips on [v]; under the default codec a [Set] does not (it is read back as
    an array), nor does a [Map] (read back as a plain object). *)
Theorem read_after_write (h : Hook) (v r : Value) (st : State)
    (text : option string) :
  fst (persist h v st) = Normal tt ->
  serializer (options h) v = Normal text ->
  string_argument text <> "" ->
  decode (options h) (string_argument text) = Normal r ->
  let st' := snd (setValue h (NewValue v) st) in
  stored_text st' (key h) = Some (string_argument text) /\
  fst (readValue h st') = Normal r.
Proof.
  intros Hok Hser Hne Hdec.
  destruct (persist h v st) as [[[] | e] st2] eqn:Ep; [| discriminate].
  apply persist_inv in Ep as (w & text' & Ew & Ed & Hser' & Hacc & _).
  assert (text' = text) as -> by congruence.
  rewrite (setValue_NewValue_success h v st w text Ew Ed Hser Hacc). simpl.
  assert (stored_text
            (with_window
               (Some (after_dispatch (changeEvent h)
                        (after_store (key h) (string_argument text) w)))
               (with_storedValue v st)) (key h)
          = Some (string_argument text)) as Hst
    by now apply stored_text_after_write.
  split; [exact Hst |].
  now apply (readValue_decodes h _ (string_argument text)).
Qed.

(** C2 (write atomicity on failure).  [setValue] always returns.  If
    resolving the updater (line 131) throws, or line 134 does -- reaching the
    storage area, the serializer, or [setItem] itself -- then a warning is
    logged and the cached value and the window (storage area and dispatched
    events) are what they were.  Only when line 134 returns is the cached
    value the new value and a change event dispatched for the key, the
    storage area then holding the serialized text. *)
Theorem setValue_atomic (h : Hook) (value : SetStateAction) (st : State) :
  exists st',
    setValue h value st = (Normal tt, st') /\
    let failed (e : Exn) (st1 : State) :=
      console st' = (console st1 ++ [WarnSetting (key h) e])%list /\
      storedValue st' = storedValue st /\
      window st' = window st in
    match resolveAction h value (snd (warnIfServer h st)) with
    | (Throw e, st1) => failed e st1
    | (Normal newValue, st1) =>
        match persist h newValue st1 with
        | (Throw e, _) => failed e st1
        | (Normal _, _) =>
            storedValue st' = newValue /\
            published st' = (published st ++ [changeEvent h])%list /\
            exists text,
              serializer (options h) newValue = Normal text /\
              stored_text st' (key h) = Some (string_argument text)
        end
    end.
Proof.
  destruct (setValue_cases h value st) as (st' & E & _ & Hcases).
  exists st'. split; [exact E |].
  revert Hcases. unfold attempt, bind.
  destruct (resolveAction h value (snd (warnIfServer h st))) as [[nv | e] st1].
  - destruct (persist h nv st1) as [[u | e] st2] eqn:Ep.
    + unfold ret. auto.
    + apply persist_throw in Ep as ->. now intros (-> & Hs & Hw).
  - now intros (-> & Hs & Hw).
Qed.

(** What makes line 134 throw: no window, a storage area that may not be
    reached, a serializer that throws, or a refused [setItem]. *)
Lemma persist_throws (h : Hook) (nv : Value) (st : State) (e : Exn) :
  fst (persist h nv st) = Throw e <->
  match window st with
  | None => e = ReferenceError
  | Some w =>
      if access_denied (sessionStorage w) then e = SecurityError
      else match serializer (options h) nv with
           | Throw e' => e = e'
           | Normal text =>
               fst (Storage_setItem (key h) (string_argument text) st) = Throw e
           end
  end.
Proof.
  unfold persist, bind, window_sessionStorage, lift.
  destruct (window st) as [w |] eqn:Ew; simpl; [| split; congruence].
  destruct (access_denied (sessionStorage w)); simpl; [split; congruence |].
  destruct (serializer (options h) nv) as [text | e']; simpl;
    [reflexivity | split; congruence].
Qed.

(** C3, as amended (write without a window).  On the server [setValue]
    logs the not-a-client warning, then the warning for the [ReferenceError]
    thrown on reaching [window.sessionStorage] (or for what the updater threw);
    nothing is stored, the cached value is unchanged and no event is
    dispatched. *)
Theorem setValue_on_server (h : Hook) (value : SetStateAction) (st : State) :
  window st = None ->
  exists e st',
    setValue h value st = (Normal tt, st') /\
    storedValue st' = storedValue st /\
    window st' = None /\
    console st' =
      (console st ++ [WarnNotClient (key h); WarnSetting (key h) e])%list /\
    (forall v, value = NewValue v -> e = ReferenceError).
Proof.
  intros Ew.
  unfold setValue, warnIfServer, bind at 1 2, IS_SERVER. rewrite Ew.
  unfold console_log at 1. unfold try_catch, bind at 1.
  set (st0 := with_console (console st ++ [WarnNotClient (key h)]) st).
  assert (window st0 = None) as Ew0 by exact Ew.
  assert (forall nv st1, window st1 = None ->
            (persist h nv;; setStoredValue nv;;
             window_dispatchEvent (changeEvent h))%eff st1
            = (Throw ReferenceError, st1)) as Hp.
  { intros nv st1 Ew1.
    unfold persist, bind, window_sessionStorage. now rewrite Ew1. }
  destruct value as [v | f]; simpl.
  - rewrite (Hp v st0 Ew0). unfold console_log. simpl.
    exists ReferenceError. eexists. split; [reflexivity |]. simpl.
    rewrite <- app_assoc. repeat split; auto.
  - unfold bind at 1.
    destruct (readValue_spec h st0) as (v & st1 & E & Hw & Hs & Hk & _).
    assert (console st1 = console st0) as Hc.
    { revert E. unfold readValue, bind, IS_SERVER.
      destruct (evalInitialValue_spec (initialValue h) st0)
        as (v0 & st1' & E0 & Hw' & _ & Hc' & _).
      rewrite E0, Hw', Ew0. unfold ret. congruence. }
    rewrite E. unfold lift. destruct (f v) as [nv | e].
    + rewrite (Hp nv st1) by congruence. unfold console_log. simpl.
      exists ReferenceError. eexists. split; [reflexivity |]. simpl.
      rewrite Hc. simpl. rewrite <- app_assoc. repeat split; auto; congruence.
    + unfold console_log. simpl.
      exists e. eexists. split; [reflexivity |]. simpl.
      rewrite Hc. simpl. rewrite <- app_assoc. repeat split; auto; congruence.
Qed.

(** C5 (the ["undefined"] sentinel).  With the default codec and a storage
    area that takes the write, [write(undefined)] stores the literal text
    ["undefined"] under the key, and the following [read()] returns
    [undefined] without a call to [JSON.parse].  The platform fact used is
    that [JSON.stringify(undefined)] is [undefined]. *)
Theorem undefined_round_trip (h : Hook) (st : State) (w : Window) :
  JSON_stringify VUndefined = Normal None ->
  options h = default_options ->
  window st = Some w ->
  access_denied (sessionStorage w) = false ->
  store_accepts (sessionStorage w) (key h) "undefined" ->
  exists st' st'',
    setValue h (NewValue VUndefined) st = (Normal tt, st') /\
    stored_text st' (key h) = Some "undefined" /\
    readValue h st' = (Normal VUndefined, st'') /\
    parse_calls st'' = parse_calls st.
Proof.
  intros Hjson Hopt Ew Ed Hacc.
  assert (serializer (options h) VUndefined = Normal None) as Hser.
  { unfold serializer. rewrite Hopt. exact Hjson. }
  rewrite (setValue_NewValue_success h VUndefined st w None Ew Ed Hser Hacc).
  change (string_argument None) with "undefined".
  eexists.
  unfold readValue, bind, IS_SERVER, try_catch.
  destruct (initialValue h) as [x | f]; simpl.
  - eexists. split; [reflexivity |].
    split; [now apply stored_text_after_write |].
    unfold bind, window_sessionStorage, Storage_getItem. simpl.
    rewrite Ed. simpl. rewrite lookup_insert_eq.
    unfold deserializer. rewrite Hopt. simpl.
    split; reflexivity.
  - eexists. split; [reflexivity |].
    split; [now apply stored_text_after_write |].
    unfold bind, window_sessionStorage, Storage_getItem. simpl.
    rewrite Ed. simpl. rewrite lookup_insert_eq.
    unfold deserializer. rewrite Hopt. simpl.
    split; reflexivity.
Qed.

(** C6, as amended (cache follows store).  After the mount effect, after a
    handled notification, and after a write of a mounted instance whose
    notification went out, the cached value is the decoding of the text held
    under the key when that text is non-empty and decodes, and otherwise --
    no window, storage area unreachable, key absent, empty text, decoding
    failed -- a value [initialValue] evaluated to in the meantime. *)
Theorem cache_follows_store (h : Hook) (st : State) :
  (exists st', keyEffect h st = (Normal tt, st') /\ in_step h st st') /\
  (forall event, rereads h event ->
     exists st', handleStorageChange h event st = (Normal tt, st') /\
                 in_step h st st') /\
  (forall value,
     published (snd (setValue h value st)) <> published st ->
     exists st', write h value st = (Normal tt, st') /\ in_step h st st').
Proof.
  split; [| split].
  - destruct (keyEffect_spec h st) as (v & st1 & _ & E & Hin). eauto.
  - intros event Hre. rewrite (handleStorageChange_rereads h event st Hre).
    destruct (keyEffect_spec h st) as (v & st1 & _ & E & Hin). eauto.
  - intros value Hpub.
    destruct (setValue_cases h value st) as (st1 & E & Hk & Hcases).
    rewrite E in Hpub. simpl in Hpub.
    unfold write. rewrite E.
    destruct (attempt h value (snd (warnIfServer h st))) as [[nv | e] st0].
    + destruct Hcases as (_ & Hp & _). rewrite Hp.
      rewrite drop_app_length. simpl. unfold bind.
      rewrite (handleStorageChange_rereads h (changeEvent h) st1)
        by (right; right; reflexivity).
      destruct (keyEffect_spec h st1) as (v & st2 & _ & E2 & Hin).
      rewrite E2. unfold ret. eexists. split; [reflexivity |].
      now apply (in_step_since h st st1).
    + destruct Hcases as (-> & _ & Hw). exfalso. apply Hpub.
      unfold published. simpl in *. now rewrite Hw.
Qed.

(** C7, as amended (notification filter).  On either channel, an event whose
    key is a non-empty string other than the hook's key is ignored: the state
    is unchanged.  An event whose key is the hook's key, is missing or [null],
    or is the empty string makes the handler run [readValue] and cache what it
    returns. *)
Theorem handleStorageChange_filter (h : Hook) (event : Event) (st : State) :
  (forall k, ev_key event = Some k -> k <> "" -> k <> key h ->
     handleStorageChange h event st = (Normal tt, st)) /\
  (rereads h event ->
     exists v st1,
       readValue h st = (Normal v, st1) /\
       handleStorageChange h event st = (Normal tt, with_storedValue v st1)).
Proof.
  split.
  - intros k Hk Hne Hdiff. unfold handleStorageChange. rewrite Hk.
    destruct k as [| c rest]; [contradiction |].
    apply String.eqb_neq in Hdiff. now rewrite Hdiff.
  - intros Hre. rewrite (handleStorageChange_rereads h event st Hre).
    destruct (keyEffect_spec h st) as (v & st1 & E & E' & _). eauto.
Qed.

(** C8 (default encoding).  Without a custom serializer a [Map] is encoded
    as [JSON.stringify] of [Object.fromEntries] of it, a [Set] as
    [JSON.stringify] of [Array.from] of it, and any other value as
    [JSON.stringify] of the value. *)
Theorem default_encoding (o : Options) :
  opt_serializer o = None ->
  (forall entries,
     serializer o (VMap entries) = JSON_stringify (Object_fromEntries entries)) /\
  (forall elems,
     serializer o (VSet elems) = JSON_stringify (Array_from elems)) /\
  (forall v,
     (forall entries, v <> VMap entries) -> (forall elems, v <> VSet elems) ->
     serializer o v = JSON_stringify v).
Proof.
  intros Hnone. unfold serializer. rewrite Hnone. repeat split.
  intros v Hmap Hset. destruct v; try reflexivity.
  - now destruct (Hmap entries).
  - now destruct (Hset elems).
Qed.

Lemma store_again (k text : string) (w : Window) (e : Event) (st : State) :
  items (sessionStorage w) !! k = Some text ->
  with_window (Some (after_dispatch e (after_store k text w))) st
  = redispatch (dispatched w ++ [e]) w st.
Proof.
  intros Hsame. unfold redispatch, after_dispatch, after_store. simpl.
  now rewrite (store_same _ _ _ Hsame).
Qed.

(** C9, as amended (writing twice).  When the first [write(v)] gets its
    value stored, the second leaves the storage area as it is, still
    dispatches its own change event, keeps the cached value [v], and leaves
    [read()] returning what it returned after the first write: the decoding
    of [serializer(v)], which is [v] when the codec round trips on [v]. *)
Theorem write_twice (h : Hook) (v : Value) (st : State) :
  fst (persist h v st) = Normal tt ->
  let st1 := snd (setValue h (NewValue v) st) in
  let st2 := snd (setValue h (NewValue v) st1) in
  exists text,
    serializer (options h) v = Normal text /\
    stored_text st1 (key h) = Some (string_argument text) /\
    sessionStorage <$> window st2 = sessionStorage <$> window st1 /\
    published st1 = (published st ++ [changeEvent h])%list /\
    published st2 = (published st1 ++ [changeEvent h])%list /\
    storedValue st2 = v /\
    fst (readValue h st2) = fst (readValue h st1) /\
    (forall r, string_argument text <> "" ->
               decode (options h) (string_argument text) = Normal r ->
               fst (readValue h st2) = Normal r).
Proof.
  intros Hok.
  destruct (persist h v st) as [[[] | e] st'] eqn:Ep; [| discriminate].
  apply persist_inv in Ep as (w & text & Ew & Ed & Hser & Hacc & _).
  rewrite (setValue_NewValue_success h v st w text Ew Ed Hser Hacc). simpl.
  set (w1 := after_dispatch (changeEvent h)
               (after_store (key h) (string_argument text) w)).
  set (st1 := with_window (Some w1) (with_storedValue v st)).
  assert (items (sessionStorage w1) !! key h = Some (string_argument text))
    as Hsame by apply lookup_insert_eq.
  rewrite (setValue_NewValue_success h v st1 w1 text eq_refl Ed Hser
             (or_introl Hsame)). simpl.
  assert (stored_text st1 (key h) = Some (string_argument text)) as Hst
    by now apply stored_text_after_write.
  assert (with_window
            (Some (after_dispatch (changeEvent h)
                     (after_store (key h) (string_argument text) w1)))
            (with_storedValue v st1)
          = redispatch (dispatched w1 ++ [changeEvent h]) w1 st1) as Est2.
  { apply store_again, Hsame. }
  rewrite Est2.
  assert (fst (readValue h (redispatch (dispatched w1 ++ [changeEvent h]) w1 st1))
          = fst (readValue h st1)) as Hread.
  { now rewrite (readValue_redispatch h _ w1 st1 eq_refl). }
  exists text. repeat split; auto.
  - f_equal. exact (store_same _ _ _ Hsame).
  - unfold published. simpl. now rewrite Ew.
  - intros r Hne Hdec. rewrite Hread.
    now apply (readValue_decodes h st1 (string_argument text)).
Qed.

(** C10 (custom deserializer and ["undefined"]).  A custom deserializer is
    handed every text, the literal ["undefined"] included, and its completion
    is the result: a stored ["undefined"] is read as what the custom
    deserializer makes of it.  Only without one does ["undefined"] short-cut
    to the [undefined] value. *)
Theorem custom_deserializer_sees_undefined (h : Hook) (st : State) :
  (forall custom, opt_deserializer (options h) = Some custom ->
     (forall text, deserializer h text st = (custom text, st)) /\
     (forall r, stored_text st (key h) = Some "undefined" ->
                custom "undefined" = Normal r ->
                fst (readValue h st) = Normal r)) /\
  (opt_deserializer (options h) = None ->
     deserializer h "undefined" st = (Normal VUndefined, st)).
Proof.
  split.
  - intros custom Hc. split.
    + intros text. unfold deserializer. now rewrite Hc.
    + intros r Hst Hr.
      apply (readValue_decodes h st "undefined"); [exact Hst | discriminate |].
      unfold decode. now rewrite Hc.
  - unfold deserializer. intros ->. reflexivity.
Qed.
End Properties.

(** * MiniJSON reads back what it writes *)

Module MiniJSONFacts.
Import MiniJSON.

Lemma append_cons (x : ascii) (a b : string) :
  String x a +:+ b = String x (a +:+ b).
Proof. reflexivity. Qed.

Lemma append_nil_l (a : string) : "" +:+ a = a.
Proof. reflexivity. Qed.

Lemma append_assoc (a b c : string) : (a +:+ b) +:+ c = a +:+ (b +:+ c).
Proof.
  induction a as [| x a IH]; [reflexivity |].
  rewrite !append_cons. now rewrite IH.
Qed.

Lemma append_nil_r (a : string) : a +:+ "" = a.
Proof.
  induction a as [| x a IH]; [reflexivity |].
  rewrite append_cons. now rewrite IH.
Qed.

Lemma length_append (a b : string) :
  String.length (a +:+ b) = (String.length a + String.length b)%nat.
Proof.
  induction a as [| x a IH]; [reflexivity |].
  rewrite append_cons. simpl. now rewrite IH.
Qed.

Lemma read_string_quote_char (c : ascii) (s : string) :
  read_string (quote_char c +:+ s)
  = match read_string s with
    | Some (body, after) => Some (String c body, after)
    | None => None
    end.
Proof. destruct c as [[] [] [] [] [] [] [] []]; reflexivity. Qed.

Lemma read_string_quote_body (s rest : string) :
  read_string (quote_body s +:+ String DQ rest) = Some (s, rest).
Proof.
  induction s as [| c s IH]; [reflexivity |].
  simpl quote_body. now rewrite append_assoc, read_string_quote_char, IH.
Qed.

Lemma read_string_quoted (s rest : string) :
  exists tail, QuoteJSONString s +:+ rest = String DQ tail /\
               read_string tail = Some (s, rest).
Proof.
  exists (quote_body s +:+ String DQ rest). split.
  - unfold QuoteJSONString. now rewrite append_cons, append_assoc.
  - apply read_string_quote_body.
Qed.

Lemma pretty_N_char_digit (x : N) :
  (x < 10)%N ->
  is_digit (pretty_N_char x) = true /\
  N_of_ascii (pretty_N_char x) = (48 + x)%N.
Proof.
  intros Hx.
  assert (x = 0 \/ x = 1 \/ x = 2 \/ x = 3 \/ x = 4 \/ x = 5 \/ x = 6 \/ x = 7
          \/ x = 8 \/ x = 9)%N as H by lia.
  repeat (destruct H as [-> | H]; [split; reflexivity |]). subst. split; reflexivity.
Qed.

Lemma pretty_N_go_digits (x : N) (s : string) :
  all_digits s = true -> all_digits (pretty_N_go x s) = true.
Proof.
  revert s. induction (N.lt_wf_0 x) as [x _ IH]. intros s Hs.
  destruct (decide (x = 0)%N) as [-> | Hx]; [exact Hs |].
  rewrite pretty_N_go_step by lia.
  apply IH; [apply N.div_lt; lia |].
  simpl. rewrite Hs.
  now destruct (pretty_N_char_digit (x mod 10)) as [-> _];
    [apply N.mod_lt; lia |].
Qed.

Lemma pretty_N_go_value (x : N) (s : string) :
  digits_value (pretty_N_go x s) 0%N = digits_value s x.
Proof.
  revert s. induction (N.lt_wf_0 x) as [x _ IH]. intros s.
  destruct (decide (x = 0)%N) as [-> | Hx]; [reflexivity |].
  rewrite pretty_N_go_step by lia.
  rewrite IH by (apply N.div_lt; lia). simpl.
  destruct (pretty_N_char_digit (x mod 10)) as [-> ->];
    [apply N.mod_lt; lia |].
  f_equal. pose proof (N.div_mod x 10 ltac:(lia)) as Hdm.
  set (q := (x / 10)%N) in *. set (r := (x mod 10)%N) in *. clearbody q r. lia.
Qed.

Lemma pretty_N_go_head (x : N) (s : string) :
  (0 < x)%N ->
  exists c tail, pretty_N_go x s = String c tail /\
                 is_digit c = true /\ Ascii.eqb c "0" = false.
Proof.
  revert s. induction (N.lt_wf_0 x) as [x _ IH]. intros s Hx.
  rewrite pretty_N_go_step by lia.
  destruct (decide (x `div` 10 = 0)%N) as [Hq | Hq].
  - rewrite Hq, pretty_N_go_0. eexists _, _. split; [reflexivity |].
    assert (x < 10)%N as Hlt.
    { destruct (decide (x < 10)%N) as [| Hge]; [done |].
      assert (0 < x `div` 10)%N as Hpos by (apply N.div_str_pos; lia).
      rewrite Hq in Hpos. lia. }
    rewrite N.mod_small by lia.
    assert (x = 1 \/ x = 2 \/ x = 3 \/ x = 4 \/ x = 5 \/ x = 6 \/ x = 7
            \/ x = 8 \/ x = 9)%N as H by lia.
    repeat (destruct H as [-> | H]; [split; reflexivity |]). subst.
    split; reflexivity.
  - apply IH; [apply N.div_lt; lia | now apply N.neq_0_lt_0].
Qed.

Lemma read_digits_all (ds rest : string) :
  all_digits ds = true -> delimited rest = true ->
  read_digits (ds +:+ rest) = (ds, rest).
Proof.
  intros Hds Hrest. induction ds as [| c ds IH].
  - rewrite append_nil_l.
    destruct rest as [| d rest]; [reflexivity |]. simpl in Hrest.
    simpl. destruct (is_digit d); [discriminate | reflexivity].
  - simpl in Hds. apply andb_true_iff in Hds as [Hc Hds].
    rewrite append_cons. simpl. now rewrite Hc, IH.
Qed.

Lemma starts_fraction_delimited (rest : string) :
  delimited rest = true -> starts_fraction_or_exponent rest = false.
Proof.
  destruct rest as [| c rest]; [reflexivity |]. simpl.
  destruct (is_digit c), (Ascii.eqb c "."), (Ascii.eqb c "e"),
    (Ascii.eqb c "E"); simpl; congruence.
Qed.

Lemma read_natural_pretty (n : N) (rest : string) :
  delimited rest = true ->
  read_natural (pretty n +:+ rest) = Some (n, rest).
Proof.
  intros Hrest. unfold read_natural, pretty, pretty_N.
  destruct (decide (n = 0)%N) as [-> | Hn].
  - rewrite (read_digits_all "0" rest eq_refl Hrest).
    now rewrite (starts_fraction_delimited rest Hrest).
  - rewrite (read_digits_all _ rest (pretty_N_go_digits n "" eq_refl) Hrest).
    destruct (pretty_N_go_head n "") as (c & tail & E & Hd & Hz); [lia |].
    pose proof (pretty_N_go_value n "") as Hval. rewrite E in *.
    rewrite (starts_fraction_delimited rest Hrest), Hval. simpl.
    destruct c as [[] [] [] [] [] [] [] []]; try discriminate;
      destruct tail; reflexivity.
Qed.

Lemma join_elements (xs : list Value) (k : string) :
  join "," (List.map json_text xs) +:+ k = elements_then xs k.
Proof.
  induction xs as [| x [| y xs] IH]; try reflexivity.
  change (join "," (List.map json_text (x :: y :: xs)))
    with (json_text x +:+ "," +:+ join "," (List.map json_text (y :: xs))).
  rewrite !append_assoc, IH. reflexivity.
Qed.

Lemma join_members (props : list (string * Value)) (k : string) :
  join "," (List.map member_text props) +:+ k = members_then props k.
Proof.
  induction props as [| p [| q props] IH]; try reflexivity.
  change (join "," (List.map member_text (p :: q :: props)))
    with (member_text p +:+ "," +:+ join "," (List.map member_text (q :: props))).
  rewrite !append_assoc, IH. reflexivity.
Qed.

Lemma members_flat_map (props : list (string * Value)) :
  forallb (fun p => json_data (snd p)) props = true ->
  (forall v, json_data v = true -> is_Some (SerializeJSONProperty v)) ->
  List.flat_map
    (fun p => match SerializeJSONProperty (snd p) with
              | Some text => [QuoteJSONString (fst p) +:+ ":" +:+ text]
              | None => []
              end) props
  = List.map member_text props.
Proof.
  intros Hall Hsome. induction props as [| p props IH]; [reflexivity |].
  simpl in Hall. apply andb_true_iff in Hall as [Hp Hall].
  change (List.map member_text (p :: props))
    with (member_text p :: List.map member_text props).
  rewrite <- (IH Hall). unfold member_text, json_text.
  destruct (Hsome _ Hp) as [text Htext]. simpl. now rewrite Htext.
Qed.

Lemma json_data_serializes (v : Value) :
  json_data v = true -> is_Some (SerializeJSONProperty v).
Proof. destruct v as [| | [] | | | | | |]; simpl; eauto; discriminate. Qed.

Lemma json_text_VArr (xs : list Value) (k : string) :
  json_text (VArr xs) +:+ k = String "[" (elements_then xs (String "]" k)).
Proof.
  unfold json_text. simpl SerializeJSONProperty.
  change (List.map (fun x => match SerializeJSONProperty x with
                             | Some text => text
                             | None => "null"
                             end) xs) with (List.map json_text xs).
  rewrite !append_cons, append_nil_l, append_assoc, join_elements. reflexivity.
Qed.

Lemma json_text_VObj (props : list (string * Value)) (k : string) :
  forallb (fun p => json_data (snd p)) props = true ->
  json_text (VObj props) +:+ k = String "{" (members_then props (String "}" k)).
Proof.
  intros Hall. unfold json_text. simpl SerializeJSONProperty.
  rewrite (members_flat_map props Hall json_data_serializes).
  rewrite !append_cons, append_nil_l, append_assoc, join_members. reflexivity.
Qed.

Lemma pretty_N_head (n : N) :
  exists c tail, pretty n = String c tail /\ is_digit c = true.
Proof.
  unfold pretty, pretty_N. destruct (decide (n = 0)%N) as [-> | Hn].
  - exists "0"%char, "". split; reflexivity.
  - destruct (pretty_N_go_head n "") as (c & tail & E & Hd & _); [lia |]. eauto.
Qed.

Lemma json_text_head (v : Value) :
  json_data v = true ->
  exists c tail, json_text v = String c tail /\ value_start c = true.
Proof.
  unfold json_text.
  destruct v as [| | [] | n | s | xs | props | |]; simpl; try discriminate;
    intros _; try (eexists _, _; split; [reflexivity | reflexivity]).
  destruct n as [| p | p].
  - eexists _, _. split; reflexivity.
  - destruct (pretty_N_head (Npos p)) as (c & tail & E & Hd).
    exists c, tail. split; [exact E |]. unfold value_start. rewrite Hd.
    now rewrite !orb_true_r.
  - eexists _, _. split; reflexivity.
Qed.

Lemma read_value_S (fuel : nat) (s : string) :
  read_value (S fuel) s =
  match skip_ws s with
  | EmptyString => None
  | String c rest =>
      if Ascii.eqb c "[" then
        match skip_ws rest with
        | EmptyString => None
        | String d after =>
            if Ascii.eqb d "]" then Some (VArr [], after)
            else match read_elements fuel rest with
                 | Some (xs, after') => Some (VArr xs, after')
                 | None => None
                 end
        end
      else if Ascii.eqb c "{" then
        match skip_ws rest with
        | EmptyString => None
        | String d after =>
            if Ascii.eqb d "}" then Some (VObj [], after)
            else match read_members fuel rest [] with
                 | Some (props, after') => Some (VObj props, after')
                 | None => None
                 end
        end
      else if Ascii.eqb c DQ then
        match read_string rest with
        | Some (body, after) => Some (VStr body, after)
        | None => None
        end
      else if Ascii.eqb c "-" then
        match read_natural rest with
        | Some (n, after) => Some (VNum (- Z.of_N n), after)
        | None => None
        end
      else if is_digit c then
        match read_natural (String c rest) with
        | Some (n, after) => Some (VNum (Z.of_N n), after)
        | None => None
        end
      else if Ascii.eqb c "t" then read_literal "true" (VBool true) (String c rest)
      else if Ascii.eqb c "f" then read_literal "false" (VBool false) (String c rest)
      else if Ascii.eqb c "n" then read_literal "null" VNull (String c rest)
      else None
  end.
Proof. reflexivity. Qed.

Lemma read_elements_S (fuel : nat) (s : string) :
  read_elements (S fuel) s =
  match read_value fuel s with
  | Some (x, after) =>
      match skip_ws after with
      | EmptyString => None
      | String d more =>
          if Ascii.eqb d "," then
            match read_elements fuel more with
            | Some (xs, after') => Some (x :: xs, after')
            | None => None
            end
          else if Ascii.eqb d "]" then Some ([x], more)
          else None
      end
  | None => None
  end.
Proof. reflexivity. Qed.

Lemma read_members_S (fuel : nat) (s : string) (props : list (string * Value)) :
  read_members (S fuel) s props =
  match skip_ws s with
  | EmptyString => None
  | String c rest =>
      if Ascii.eqb c DQ then
        match read_string rest with
        | Some (name, after) =>
            match skip_ws after with
            | EmptyString => None
            | String d after' =>
                if Ascii.eqb d ":" then
                  match read_value fuel after' with
                  | Some (x, after'') =>
                      let props' := CreateDataProperty props name x in
                      match skip_ws after'' with
                      | EmptyString => None
                      | String e more =>
                          if Ascii.eqb e "," then read_members fuel more props'
                          else if Ascii.eqb e "}" then Some (props', more)
                          else None
                      end
                  | None => None
                  end
                else None
            end
        | None => None
        end
      else None
  end.
Proof. reflexivity. Qed.

Lemma value_start_facts (c : ascii) :
  value_start c = true ->
  is_ws c = false /\ Ascii.eqb c "]" = false /\ Ascii.eqb c "}" = false.
Proof.
  destruct c as [[] [] [] [] [] [] [] []]; intros H; try discriminate H;
    repeat split; reflexivity.
Qed.

Lemma digit_dispatch (c : ascii) :
  is_digit c = true ->
  is_ws c = false /\ Ascii.eqb c "[" = false /\ Ascii.eqb c "{" = false /\
  Ascii.eqb c DQ = false /\ Ascii.eqb c "-" = false.
Proof.
  destruct c as [[] [] [] [] [] [] [] []]; intros H; try discriminate H;
    repeat split; reflexivity.
Qed.

Lemma elements_then_head (x : Value) (xs : list Value) (k : string) :
  json_data x = true ->
  exists c tail, elements_then (x :: xs) k = String c tail /\
                 value_start c = true.
Proof.
  intros Hx. destruct (json_text_head x Hx) as (c & tail & E & Hc).
  destruct xs as [| y xs]; simpl; rewrite E, append_cons; eauto.
Qed.

Lemma members_then_head (p : string * Value) (props : list (string * Value))
    (k : string) :
  exists tail, members_then (p :: props) k = String DQ tail.
Proof.
  destruct props as [| q props]; simpl; unfold member_text, QuoteJSONString;
    rewrite append_cons; eauto.
Qed.

Lemma has_property_false (k : string) (acc : list (string * Value)) :
  k ∉ List.map fst acc -> has_property k acc = false.
Proof.
  intros Hk. unfold has_property. induction acc as [| [k' v'] acc IH];
    [reflexivity |].
  simpl in *. apply not_elem_of_cons in Hk as [Hne Hk].
  rewrite (IH Hk), orb_false_r. now apply String.eqb_neq.
Qed.

Lemma CreateDataProperty_fresh (acc : list (string * Value)) (k : string)
    (x : Value) :
  k ∉ List.map fst acc -> array_index k = None ->
  CreateDataProperty acc k x = (acc ++ [(k, x)])%list.
Proof.
  intros Hk Hi. unfold CreateDataProperty.
  now rewrite (has_property_false k acc Hk), Hi.
Qed.

Lemma weight_pos (v : Value) : (1 <= weight v)%nat.
Proof. destruct v; simpl; lia. Qed.

Lemma plain_keys_spec (ks : list string) :
  plain_keys ks = true ->
  NoDup ks /\ Forall (fun key => array_index key = None) ks.
Proof.
  unfold plain_keys. intros H. apply andb_true_iff in H as [Hnd Hall].
  apply bool_decide_eq_true in Hnd. split; [exact Hnd |].
  apply Forall_forall. intros k Hk.
  rewrite forallb_forall in Hall. apply list_elem_of_In in Hk.
  specialize (Hall k Hk). apply negb_true_iff, bool_decide_eq_false in Hall.
  destruct (array_index k); [| reflexivity]. destruct Hall. eauto.
Qed.

Lemma read_value_step (fuel : nat) :
  reads_values fuel -> reads_elements fuel -> reads_members fuel ->
  reads_values (S fuel).
Proof.
  intros IHv IHe IHm v k Hv Hw Hk. rewrite read_value_S.
  destruct v as [| | b | n | s | xs | props | |]; try discriminate Hv.
  - reflexivity.
  - destruct b; reflexivity.
  - destruct n as [| p | p].
    + change (json_text (VNum 0) +:+ k) with (pretty 0%N +:+ k).
      change (pretty 0%N +:+ k) with (String "0" k) at 1. simpl skip_ws.
      cbv beta iota. simpl Ascii.eqb. simpl is_digit. cbv beta iota.
      change (String "0" k) with (pretty 0%N +:+ k).
      now rewrite (read_natural_pretty 0 k Hk).
    + change (json_text (VNum (Z.pos p))) with (pretty (N.pos p)).
      destruct (pretty_N_head (N.pos p)) as (c & tail & E & Hd).
      pose proof (read_natural_pretty (N.pos p) k Hk) as Hread.
      rewrite E in *. rewrite append_cons in *.
      destruct (digit_dispatch c Hd) as (Hws & H1 & H2 & H3 & H4).
      simpl skip_ws. rewrite Hws, H1, H2, H3, H4, Hd, Hread. reflexivity.
    + change (json_text (VNum (Z.neg p)) +:+ k)
        with (String "-" (pretty (N.pos p) +:+ k)).
      simpl skip_ws. cbv beta iota. simpl Ascii.eqb. cbv beta iota.
      now rewrite (read_natural_pretty (N.pos p) k Hk).
  - destruct (read_string_quoted s k) as (tail & E & Hread).
    change (json_text (VStr s)) with (QuoteJSONString s). rewrite E.
    simpl skip_ws. cbv beta iota. simpl Ascii.eqb. cbv beta iota.
    now rewrite Hread.
  - rewrite json_text_VArr. simpl skip_ws. cbv beta iota.
    simpl Ascii.eqb. cbv beta iota.
    destruct xs as [| x xs]; [reflexivity |].
    simpl in Hv. apply andb_true_iff in Hv as [Hx Hxs].
    destruct (elements_then_head x xs (String "]" k) Hx) as (c & tail & E & Hc).
    destruct (value_start_facts c Hc) as (Hws & Hclose & _).
    rewrite (IHe (x :: xs) k); [| discriminate | simpl; now rewrite Hx |
                                 simpl in Hw; unfold elements_weight; simpl; lia].
    rewrite E. simpl skip_ws. rewrite Hws, Hclose. reflexivity.
  - simpl in Hv. apply andb_true_iff in Hv as [Hall Hkeys].
    rewrite (json_text_VObj props k Hall). simpl skip_ws. cbv beta iota.
    simpl Ascii.eqb. cbv beta iota.
    destruct props as [| p props]; [reflexivity |].
    destruct (members_then_head p props (String "}" k)) as (tail & E).
    destruct (plain_keys_spec _ Hkeys) as [Hnd Hplain].
    rewrite (IHm (p :: props) [] k); [| discriminate | exact Hall | exact Hnd |
                                       exact Hplain |
                                       simpl in Hw; unfold members_weight; simpl; lia].
    rewrite E. reflexivity.
Qed.

Lemma read_elements_step (fuel : nat) :
  reads_values fuel -> reads_elements fuel -> reads_elements (S fuel).
Proof.
  intros IHv IHe xs k Hne Hall Hw. rewrite read_elements_S.
  destruct xs as [| x [| y xs]]; [contradiction | |].
  - simpl in Hall. rewrite andb_true_r in Hall.
    unfold elements_weight in Hw. simpl in Hw.
    simpl elements_then.
    rewrite (IHv x (String "]" k) Hall); [| lia | reflexivity].
    reflexivity.
  - simpl in Hall. apply andb_true_iff in Hall as [Hx Hrest].
    unfold elements_weight in Hw. simpl in Hw.
    change (elements_then (x :: y :: xs) (String "]" k))
      with (json_text x +:+ String "," (elements_then (y :: xs) (String "]" k))).
    set (more := elements_then (y :: xs) (String "]" k)).
    rewrite (IHv x _ Hx); [| lia | reflexivity].
    simpl skip_ws. cbv beta iota. simpl Ascii.eqb. cbv beta iota.
    subst more.
    rewrite (IHe (y :: xs) k); [reflexivity | discriminate | exact Hrest |].
    unfold elements_weight. simpl. lia.
Qed.

Lemma read_members_step (fuel : nat) :
  reads_values fuel -> reads_members fuel -> reads_members (S fuel).
Proof.
  intros IHv IHm props acc k Hne Hall Hnd Hplain Hw. rewrite read_members_S.
  destruct props as [| [name x] props]; [contradiction |].
  simpl in Hall. apply andb_true_iff in Hall as [Hx Hrest].
  unfold members_weight in Hw. simpl in Hw.
  simpl in Hnd, Hplain.
  apply Forall_cons in Hplain as [Hname Hplain].
  assert (name ∉ List.map fst acc) as Hfresh.
  { apply NoDup_app in Hnd as (_ & Hdisj & _). intros Hin.
    apply (Hdisj name Hin). left. }
  assert (CreateDataProperty acc name x = (acc ++ [(name, x)])%list) as Hcreate
    by now apply CreateDataProperty_fresh.
  assert (forall tail,
            member_text (name, x) +:+ tail
            = String DQ (quote_body name +:+
                         String DQ (String ":" (json_text x +:+ tail))))
    as Htext.
  { intros tail. unfold member_text, QuoteJSONString. simpl fst. simpl snd.
    rewrite !append_cons, !append_assoc, !append_cons, append_nil_l.
    reflexivity. }
  destruct props as [| q props].
  - simpl members_then. rewrite Htext. simpl skip_ws. cbv beta iota.
    simpl Ascii.eqb. cbv beta iota.
    rewrite read_string_quote_body. simpl skip_ws. cbv beta iota.
    simpl Ascii.eqb. cbv beta iota.
    rewrite (IHv x (String "}" k) Hx); [| lia | reflexivity].
    cbv zeta. rewrite Hcreate. reflexivity.
  - change (members_then ((name, x) :: q :: props) (String "}" k))
      with (member_text (name, x) +:+
            String "," (members_then (q :: props) (String "}" k))).
    set (more := members_then (q :: props) (String "}" k)).
    rewrite Htext. simpl skip_ws. cbv beta iota.
    simpl Ascii.eqb. cbv beta iota.
    rewrite read_string_quote_body. simpl skip_ws. cbv beta iota.
    simpl Ascii.eqb. cbv beta iota.
    rewrite (IHv x _ Hx); [| lia | reflexivity].
    cbv zeta. rewrite Hcreate. simpl skip_ws. cbv beta iota.
    simpl Ascii.eqb. cbv beta iota. subst more.
    rewrite (IHm (q :: props) (acc ++ [(name, x)])%list k);
      [now rewrite <- app_assoc | discriminate | exact Hrest | |
        exact Hplain | unfold members_weight; simpl in Hw |- *; lia].
    rewrite map_app, <- app_assoc. exact Hnd.
Qed.

Lemma read_json (fuel : nat) :
  reads_values fuel /\ reads_elements fuel /\ reads_members fuel.
Proof.
  induction fuel as [| fuel (IHv & IHe & IHm)].
  - repeat split.
    + intros v k _ Hw. pose proof (weight_pos v). lia.
    + intros [| x xs] k Hne _ Hw; [contradiction |].
      unfold elements_weight in Hw. simpl in Hw. lia.
    + intros [| p props] acc k Hne _ _ _ Hw; [contradiction |].
      unfold members_weight in Hw. simpl in Hw. lia.
  - repeat split.
    + now apply read_value_step.
    + now apply read_elements_step.
    + now apply read_members_step.
Qed.

Lemma json_text_length (v : Value) :
  json_data v = true -> (1 <= String.length (json_text v))%nat.
Proof.
  intros Hv. destruct (json_text_head v Hv) as (c & tail & -> & _). simpl. lia.
Qed.

Lemma elements_weight_length (xs : list Value) (k : string) :
  Forall (fun x => (weight x <= String.length (json_text x))%nat) xs ->
  (1 <= String.length k)%nat ->
  (elements_weight xs <= String.length (elements_then xs k))%nat.
Proof.
  intros Hall Hk. unfold elements_weight.
  induction Hall as [| x [| y xs] Hx Hall IH].
  - simpl. lia.
  - change (elements_then [x] k) with (json_text x +:+ k).
    rewrite length_append. simpl List.map. simpl list_sum. lia.
  - change (elements_then (x :: y :: xs) k)
      with (json_text x +:+ String "," (elements_then (y :: xs) k)).
    rewrite length_append.
    set (rest_text := elements_then (y :: xs) k) in *.
    set (this_text := json_text x) in *. clearbody this_text rest_text.
    simpl in IH. simpl List.map. simpl list_sum. simpl String.length. lia.
Qed.

Lemma member_text_length (p : string * Value) :
  (S (String.length (json_text (snd p))) <= String.length (member_text p))%nat.
Proof.
  unfold member_text. rewrite !length_append. simpl. lia.
Qed.

Lemma members_weight_length (props : list (string * Value)) (k : string) :
  Forall (fun p => (weight (snd p) <= String.length (json_text (snd p)))%nat)
    props ->
  (1 <= String.length k)%nat ->
  (members_weight props <= String.length (members_then props k))%nat.
Proof.
  intros Hall Hk. unfold members_weight.
  induction Hall as [| p [| q props] Hp Hall IH].
  - simpl. lia.
  - change (members_then [p] k) with (member_text p +:+ k).
    rewrite length_append. pose proof (member_text_length p).
    simpl list_sum. simpl List.map. simpl list_sum. lia.
  - change (members_then (p :: q :: props) k)
      with (member_text p +:+ String "," (members_then (q :: props) k)).
    rewrite length_append. pose proof (member_text_length p).
    set (rest_text := members_then (q :: props) k) in *.
    set (this_text := member_text p) in *. clearbody this_text rest_text.
    simpl in IH. simpl List.map. simpl list_sum. simpl String.length. lia.
Qed.

Lemma weight_le_text (n : nat) (v : Value) :
  (weight v <= n)%nat -> json_data v = true ->
  (weight v <= String.length (json_text v))%nat.
Proof.
  revert v. induction n as [| n IH]; intros v Hn Hv.
  { pose proof (weight_pos v). lia. }
  destruct v as [| | b | z | s | xs | props | |]; try discriminate Hv;
    try (apply (json_text_length _ Hv)).
  - rewrite <- (append_nil_r (json_text (VArr xs))), json_text_VArr.
    simpl String.length. simpl weight. apply le_n_S.
    apply elements_weight_length; [| simpl; lia].
    simpl in Hv, Hn. apply Forall_forall. intros x Hx.
    rewrite forallb_forall in Hv.
    apply IH; [| apply Hv; now apply list_elem_of_In].
    apply le_S_n in Hn. revert Hn. clear -Hx.
    induction Hx; simpl; intros; [lia | apply IHHx; lia].
  - simpl in Hv. apply andb_true_iff in Hv as [Hall _].
    rewrite <- (append_nil_r (json_text (VObj props))),
      (json_text_VObj props "" Hall).
    simpl String.length. simpl weight. apply le_n_S.
    apply members_weight_length; [| simpl; lia].
    simpl in Hn. apply Forall_forall. intros p Hp.
    rewrite forallb_forall in Hall.
    apply IH; [| apply Hall; now apply list_elem_of_In].
    apply le_S_n in Hn. revert Hn. clear -Hp.
    induction Hp; simpl; intros; [lia | apply IHHp; lia].
Qed.

(** [parse] undoes [stringify] on JSON data. *)
Lemma parse_json_text (v : Value) :
  json_data v = true -> parse (json_text v) = Normal v.
Proof.
  intros Hv. unfold parse.
  destruct (read_json (2 * String.length (json_text v) + 2)) as (Hread & _).
  specialize (Hread v "" Hv).
  rewrite append_nil_r in Hread. rewrite Hread; [reflexivity | | reflexivity].
  pose proof (weight_le_text (weight v) v (le_n _) Hv). lia.
Qed.

Lemma json_text_not_undefined (v : Value) :
  json_data v = true -> String.eqb (json_text v) "undefined" = false.
Proof.
  intros Hv. destruct (json_text_head v Hv) as (c & tail & -> & Hc).
  destruct c as [[] [] [] [] [] [] [] []]; try discriminate Hc; reflexivity.
Qed.

End MiniJSONFacts.

(** The default codec on JSON data: the text is not empty, is not the
    ["undefined"] sentinel, and decodes to the value. *)
Lemma default_codec_decodes (v : Value) :
  MiniJSON.json_data v = true ->
  serializer default_options v = Normal (Some (MiniJSON.json_text v)) /\
  MiniJSON.json_text v <> "" /\
  decode default_options (MiniJSON.json_text v) = Normal v.
Proof.
  intros Hv. repeat split.
  - destruct (MiniJSONFacts.json_data_serializes v Hv) as [text Htext].
    assert (serializer default_options v = MiniJSON.stringify v) as ->
      by (destruct v; try discriminate Hv; reflexivity).
    unfold MiniJSON.stringify, MiniJSON.json_text. now rewrite Htext.
  - destruct (MiniJSONFacts.json_text_head v Hv) as (c & tail & -> & _).
    discriminate.
  - unfold decode. simpl.
    rewrite (MiniJSONFacts.json_text_not_undefined v Hv).
    apply MiniJSONFacts.parse_json_text, Hv.
Qed.

(** With the default codec over MiniJSON, a stored JSON datum is read back
    as it was written. *)
Lemma default_codec_round_trip (h : Hook) (v : Value) (st : State) :
  options h = default_options ->
  MiniJSON.json_data v = true ->
  fst (persist h v st) = Normal tt ->
  fst (readValue h (snd (setValue h (NewValue v) st))) = Normal v.
Proof.
  intros Hopt Hv Hok.
  destruct (default_codec_decodes v Hv) as (Hser & Hne & Hdec).
  rewrite <- Hopt in Hser, Hdec.
  destruct (persist h v st) as [[[] | e] st2] eqn:Ep; [| discriminate].
  apply persist_inv in Ep as (w & text & Ew & Ed & Hser' & Hacc & _).
  assert (text = Some (MiniJSON.json_text v)) as -> by congruence.
  rewrite (setValue_NewValue_success h v st w _ Ew Ed Hser Hacc). simpl.
  apply (readValue_decodes h _ (MiniJSON.json_text v)); auto.
  now apply stored_text_after_write.
Qed.

(** ** The theorems at work on MiniJSON *)

Example stringify_examples :
  MiniJSON.stringify (Array_from [VNum 1; VNum 2]) = Normal (Some "[1,2]") /\
  MiniJSON.stringify VUndefined = Normal None /\
  MiniJSON.stringify (VArr [VUndefined; VNum (-3)]) = Normal (Some "[null,-3]") /\
  MiniJSON.stringify (Object_fromEntries [(VStr "b", VNull); (VNum 1, VBool false)])
  = Normal (Some ("{" +:+ MiniJSON.QuoteJSONString "1" +:+ ":false,"
                      +:+ MiniJSON.QuoteJSONString "b" +:+ ":null}")).
Proof. repeat split. Qed.

Example parse_examples :
  MiniJSON.parse " [1, true ,null] " = Normal mixed_array /\
  MiniJSON.parse ("{" +:+ MiniJSON.QuoteJSONString "a" +:+ ":1}")
  = Normal (VObj [("a", VNum 1)]) /\
  MiniJSON.parse "{oops" = Throw SyntaxError /\
  MiniJSON.parse "" = Throw SyntaxError /\
  MiniJSON.parse "undefined" = Throw SyntaxError.
Proof. repeat split. Qed.

(** A refused [setItem]: the warning is logged, the cached value and the
    window are as before. *)
Example quota_exceeded :
  setValue plain_hook (NewValue (VNum 7)) (client (VStr "old") full_storage)
  = (Normal tt,
     with_console [WarnSetting "k" QuotaExceededError]
       (client (VStr "old") full_storage)).
Proof. reflexivity. Qed.

(** An updater that throws. *)
Example updater_throws :
  setValue plain_hook (Updater (fun _ => Throw (Thrown "boom")))
    (client (VStr "old") open_storage)
  = (Normal tt,
     with_console [WarnSetting "k" (Thrown "boom")]
       (client (VStr "old") open_storage)).
Proof. reflexivity. Qed.

(** C1 at work: an array of a number, a boolean and [null] is read back. *)
Lemma read_after_write_witness :
  (fst (persist plain_hook mixed_array (client VNull open_storage)) = Normal tt /\
   serializer (options plain_hook) mixed_array = Normal (Some "[1,true,null]") /\
   string_argument (Some "[1,true,null]") <> "" /\
   decode (options plain_hook) "[1,true,null]" = Normal mixed_array) /\
  stored_text
    (snd (setValue plain_hook (NewValue mixed_array) (client VNull open_storage)))
    "k" = Some "[1,true,null]" /\
  fst (readValue plain_hook
         (snd (setValue plain_hook (NewValue mixed_array)
                 (client VNull open_storage))))
  = Normal mixed_array.
Proof.
  assert (fst (persist plain_hook mixed_array (client VNull open_storage))
          = Normal tt) as H1 by reflexivity.
  assert (serializer (options plain_hook) mixed_array
          = Normal (Some "[1,true,null]")) as H2 by reflexivity.
  assert (string_argument (Some "[1,true,null]") <> "") as H3 by discriminate.
  assert (decode (options plain_hook) "[1,true,null]" = Normal mixed_array)
    as H4 by reflexivity.
  split; [auto |].
  exact (read_after_write plain_hook mixed_array mixed_array
           (client VNull open_storage) (Some "[1,true,null]") H1 H2 H3 H4).
Defined.

(** C1 as stated fails: [write(new Set([1, 2]))] succeeds and stores the
    text [[1,2]]; [read()] then returns the array, not the set. *)
Lemma round_trip_fails_on_Set :
  fst (persist plain_hook two_numbers (client VNull open_storage)) = Normal tt /\
  stored_text
    (snd (setValue plain_hook (NewValue two_numbers) (client VNull open_storage)))
    "k" = Some "[1,2]" /\
  fst (readValue plain_hook
         (snd (setValue plain_hook (NewValue two_numbers)
                 (client VNull open_storage))))
  = Normal (VArr [VNum 1; VNum 2]) /\
  fst (readValue plain_hook
         (snd (setValue plain_hook (NewValue two_numbers)
                 (client VNull open_storage))))
  <> Normal two_numbers.
Proof.
  repeat split; try reflexivity.
  vm_compute. discriminate.
Qed.

(** The same for a [Map]: it comes back as a plain object. *)
Example round_trip_of_a_Map :
  fst (readValue plain_hook
         (snd (setValue plain_hook (NewValue one_entry)
                 (client VNull open_storage))))
  = Normal (VObj [("a", VNum 1)]).
Proof. reflexivity. Qed.

(** C3 as amended, on a server whose cache holds a string. *)
Lemma setValue_on_server_witness :
  window (server (VStr "cached")) = None /\
  exists e st',
    setValue plain_hook (NewValue (VNum 1)) (server (VStr "cached"))
    = (Normal tt, st') /\
    storedValue st' = storedValue (server (VStr "cached")) /\
    window st' = None /\
    console st' =
      (console (server (VStr "cached")) ++
       [WarnNotClient (key plain_hook); WarnSetting (key plain_hook) e])%list /\
    (forall v, NewValue (VNum 1) = NewValue v -> e = ReferenceError).
Proof.
  split; [reflexivity |].
  apply (setValue_on_server plain_hook (NewValue (VNum 1))
           (server (VStr "cached"))).
  reflexivity.
Defined.

(** C3 as stated fails: on the server [write(1)] leaves the cached [null]
    and dispatches nothing; the two warnings are all it does. *)
Lemma server_write_leaves_cache :
  window (server VNull) = None /\
  storedValue (snd (setValue plain_hook (NewValue (VNum 1)) (server VNull)))
  = VNull /\
  storedValue (snd (setValue plain_hook (NewValue (VNum 1)) (server VNull)))
  <> VNum 1 /\
  published (snd (setValue plain_hook (NewValue (VNum 1)) (server VNull))) = [] /\
  console (snd (setValue plain_hook (NewValue (VNum 1)) (server VNull)))
  = [WarnNotClient "k"; WarnSetting "k" ReferenceError].
Proof.
  repeat split; try reflexivity. vm_compute. discriminate.
Qed.


(** C5 at work in an empty, unrestricted storage area. *)
Lemma undefined_round_trip_witness :
  (JSON_stringify VUndefined = Normal None /\
   options plain_hook = default_options /\
   window (client VNull open_storage)
   = Some {| sessionStorage := open_storage; dispatched := [] |} /\
   access_denied open_storage = false /\
   store_accepts open_storage (key plain_hook) "undefined") /\
  exists st' st'',
    setValue plain_hook (NewValue VUndefined) (client VNull open_storage)
    = (Normal tt, st') /\
    stored_text st' (key plain_hook) = Some "undefined" /\
    readValue plain_hook st' = (Normal VUndefined, st'') /\
    parse_calls st'' = parse_calls (client VNull open_storage).
Proof.
  assert (store_accepts open_storage (key plain_hook) "undefined") as Hacc
    by (right; reflexivity).
  split; [repeat split; auto |].
  exact (undefined_round_trip plain_hook (client VNull open_storage)
           {| sessionStorage := open_storage; dispatched := [] |}
           eq_refl eq_refl eq_refl eq_refl Hacc).
Defined.

(** C6 as amended, for the hook's own notification and a stored
    ["hello"]. *)
Lemma cache_follows_store_witness :
  rereads verbatim_hook (changeEvent verbatim_hook) /\
  exists st',
    handleStorageChange verbatim_hook (changeEvent verbatim_hook)
      (client VNull (holding "k" "hello")) = (Normal tt, st') /\
    in_step verbatim_hook (client VNull (holding "k" "hello")) st'.
Proof.
  assert (rereads verbatim_hook (changeEvent verbatim_hook)) as Hre
    by (right; right; reflexivity).
  split; [exact Hre |].
  destruct (cache_follows_store verbatim_hook (client VNull (holding "k" "hello")))
    as (_ & Hhandler & _).
  exact (Hhandler (changeEvent verbatim_hook) Hre).
Defined.

(** C6 as stated fails: the key is present with the empty text, which the
    verbatim codec decodes to the empty string, yet after the mount effect
    the cache holds the initial value. *)
Lemma empty_text_not_decoded :
  stored_text (snd (keyEffect verbatim_hook (client VNull (holding "k" ""))))
    "k" = Some "" /\
  decode (options verbatim_hook) "" = Normal (VStr "") /\
  storedValue (snd (keyEffect verbatim_hook (client VNull (holding "k" ""))))
  = VStr "init" /\
  storedValue (snd (keyEffect verbatim_hook (client VNull (holding "k" ""))))
  <> VStr "".
Proof.
  repeat split; try reflexivity. vm_compute. discriminate.
Qed.

(** The hook gets there by itself: writing the empty string stores the empty
    text, and the notification that follows resets the cache. *)
Example empty_string_written :
  stored_text
    (snd (write verbatim_hook (NewValue (VStr "")) (client VNull open_storage)))
    "k" = Some "" /\
  storedValue
    (snd (write verbatim_hook (NewValue (VStr "")) (client VNull open_storage)))
  = VStr "init".
Proof. split; reflexivity. Qed.

(** C7 as amended: an event for another, non-empty key is ignored. *)
Lemma handleStorageChange_filter_witness :
  (ev_key other_key_event = Some "other" /\ "other" <> "" /\
   "other" <> key plain_hook) /\
  handleStorageChange plain_hook other_key_event (client VNull (holding "k" "1"))
  = (Normal tt, client VNull (holding "k" "1")).
Proof.
  assert ("other" <> "") as H1 by discriminate.
  assert ("other" <> key plain_hook) as H2 by discriminate.
  split; [auto |].
  exact (proj1 (handleStorageChange_filter plain_hook other_key_event
                  (client VNull (holding "k" "1")))
           "other" eq_refl H1 H2).
Defined.

(** C7 as stated fails: the event carries the key [""], which differs from
    the hook's key ["k"], and yet the handler re-reads: the cached [null]
    becomes the stored [1]. *)
Lemma empty_event_key_not_ignored :
  ev_key empty_key_event = Some "" /\
  "" <> key plain_hook /\
  storedValue (client VNull (holding "k" "1")) = VNull /\
  storedValue
    (snd (handleStorageChange plain_hook empty_key_event
            (client VNull (holding "k" "1"))))
  = VNum 1.
Proof.
  repeat split; try reflexivity. discriminate.
Qed.

(** C8 at work on a map, a set and an array. *)
Lemma default_encoding_witness :
  opt_serializer default_options = None /\
  serializer default_options one_entry
  = JSON_stringify (Object_fromEntries [(VStr "a", VNum 1)]) /\
  serializer default_options two_numbers
  = JSON_stringify (Array_from [VNum 1; VNum 2]) /\
  serializer default_options mixed_array = JSON_stringify mixed_array.
Proof.
  destruct (default_encoding default_options eq_refl) as (Hmap & Hset & Hother).
  split; [reflexivity |]. split; [apply Hmap |]. split; [apply Hset |].
  apply Hother; discriminate.
Defined.

(** C9 as amended: two writes of the same array, two events. *)
Lemma write_twice_witness :
  fst (persist plain_hook mixed_array (client VNull open_storage)) = Normal tt /\
  exists text,
    serializer (options plain_hook) mixed_array = Normal text /\
    stored_text
      (snd (setValue plain_hook (NewValue mixed_array)
              (client VNull open_storage))) (key plain_hook)
    = Some (string_argument text) /\
    published
      (snd (setValue plain_hook (NewValue mixed_array)
              (snd (setValue plain_hook (NewValue mixed_array)
                      (client VNull open_storage)))))
    = [changeEvent plain_hook; changeEvent plain_hook].
Proof.
  assert (fst (persist plain_hook mixed_array (client VNull open_storage))
          = Normal tt) as H1 by reflexivity.
  split; [exact H1 |].
  destruct (write_twice plain_hook mixed_array (client VNull open_storage) H1)
    as (text & Hser & Hst & _ & Hp1 & Hp2 & _).
  exists text. split; [exact Hser |]. split; [exact Hst |].
  rewrite Hp2, Hp1. reflexivity.
Defined.

(** C9 as stated fails: after writing the same [Map] twice, [read()]
    returns a plain object, not the map. *)
Lemma write_twice_reads_object :
  fst (persist plain_hook one_entry (client VNull open_storage)) = Normal tt /\
  fst (readValue plain_hook
         (snd (setValue plain_hook (NewValue one_entry)
                 (snd (setValue plain_hook (NewValue one_entry)
                         (client VNull open_storage))))))
  = Normal (VObj [("a", VNum 1)]) /\
  fst (readValue plain_hook
         (snd (setValue plain_hook (NewValue one_entry)
                 (snd (setValue plain_hook (NewValue one_entry)
                         (client VNull open_storage))))))
  <> Normal one_entry.
Proof.
  repeat split; try reflexivity. vm_compute. discriminate.
Qed.

(** C10 at work: the verbatim deserializer turns a stored ["undefined"] into
    the string, the default one into the [undefined] value. *)
Lemma custom_deserializer_sees_undefined_witness :
  opt_deserializer (options verbatim_hook)
  = Some (fun s => Normal (VStr s)) /\
  deserializer verbatim_hook "undefined" (client VNull (holding "k" "undefined"))
  = (Normal (VStr "undefined"), client VNull (holding "k" "undefined")) /\
  fst (readValue verbatim_hook (client VNull (holding "k" "undefined")))
  = Normal (VStr "undefined") /\
  opt_deserializer (options plain_hook) = None /\
  deserializer plain_hook "undefined" (client VNull (holding "k" "undefined"))
  = (Normal VUndefined, client VNull (holding "k" "undefined")).
Proof.
  destruct (custom_deserializer_sees_undefined verbatim_hook
              (client VNull (holding "k" "undefined"))) as [Hcustom _].
  destruct (custom_deserializer_sees_undefined plain_hook
              (client VNull (holding "k" "undefined"))) as [_ Hdefault].
  destruct (Hcustom _ eq_refl) as [Hcall Hread].
  split; [reflexivity |].
  split; [exact (Hcall "undefined") |].
  split; [exact (Hread (VStr "undefined") eq_refl eq_refl) |].
  split; [reflexivity |].
  exact (Hdefault eq_refl).
Defined.

(** * Further properties of the hook *)

Section MoreProperties.
Context {J : JSON}.

Lemma evalInitialValue_run (init : InitialValue) (st : State) :
  evalInitialValue init st = (Normal (initial_at init (clock st)), tick init st).
Proof. destruct init; reflexivity. Qed.

Lemma tick_frame (init : InitialValue) (st : State) :
  window (tick init st) = window st /\
  storedValue (tick init st) = storedValue st /\
  console (tick init st) = console st /\
  parse_calls (tick init st) = parse_calls st.
Proof. destruct init; repeat split. Qed.

(** The whole run of a read. *)
Lemma readValue_run (h : Hook) (st : State) :
  readValue h st =
  (Normal (read_outcome h (clock st) (stored_text st (key h))),
   with_console (console st ++ read_reports h st)%list
     (with_parse_calls
        (parse_calls st ++
         if parses h st then option_list (stored_text st (key h)) else [])%list
        (if parses h st
         then tick (initialValue h) (tick (initialValue h) st)
         else tick (initialValue h) st))).
Proof.
  unfold readValue, bind. rewrite evalInitialValue_run.
  unfold IS_SERVER, read_outcome, read_reports, parses, stored_text.
  destruct (tick_frame (initialValue h) st) as (Hw & _).
  rewrite Hw.
  destruct (window st) as [w |] eqn:Ew; cbv beta iota.
  2:{ destruct (opt_deserializer (options h)); simpl; rewrite ?app_nil_r;
      destruct (initialValue h); destruct st; reflexivity. }
  unfold try_catch, bind, window_sessionStorage, Storage_getItem. rewrite Hw.
  destruct (access_denied (sessionStorage w)) eqn:Ed; cbv beta iota.
  { destruct (opt_deserializer (options h)); simpl; rewrite ?app_nil_r;
      destruct (initialValue h); destruct st; reflexivity. }
  rewrite Hw.
  destruct (items (sessionStorage w) !! key h) as [[| c rest] |] eqn:Ei;
    cbv beta iota.
  1,3: destruct (opt_deserializer (options h)); simpl; rewrite ?app_nil_r;
         destruct (initialValue h); destruct st; simpl in *; reflexivity.
  unfold deserializer, decode.
  remember (String c rest) as raw eqn:Eraw. clear Eraw Ei.
  destruct (opt_deserializer (options h)) as [custom |]; cbv beta iota.
  - unfold lift. destruct (custom raw) as [r | e]; simpl;
      rewrite ?app_nil_r; destruct (initialValue h); destruct st; reflexivity.
  - destruct (String.eqb raw "undefined") eqn:Eu; simpl.
    + rewrite ?app_nil_r. destruct (initialValue h); destruct st; reflexivity.
    + unfold bind. rewrite evalInitialValue_run.
      unfold try_catch, call_JSON_parse.
      destruct (JSON_parse raw) as [r | e]; simpl;
        rewrite ?app_nil_r; destruct (initialValue h); destruct st; reflexivity.
Qed.

(** X1.  What [readValue] returns is decided by the number of evaluations
    of [initialValue] made so far and by the text readable under the hook's
    own key: the cached value, the entries under other keys, the console and
    the dispatched events play no part. *)
Theorem read_decided_by_own_slot (h : Hook) (st1 st2 : State) :
  clock st1 = clock st2 ->
  stored_text st1 (key h) = stored_text st2 (key h) ->
  fst (readValue h st1) = fst (readValue h st2).
Proof.
  intros Hclock Hslot. rewrite !readValue_run. simpl. now rewrite Hclock, Hslot.
Qed.

(** X9.  A read calls [JSON.parse] exactly when the default deserializer
    meets a non-empty text other than ["undefined"], and then on that text;
    it runs an [initialValue] producer once, and once more when it parses
    (line 84 runs it before [JSON.parse], whether or not the parse fails). *)
Theorem read_evaluations (h : Hook) (st : State) :
  parse_calls (snd (readValue h st)) =
    (parse_calls st ++
     if parses h st then option_list (stored_text st (key h)) else [])%list /\
  clock (snd (readValue h st)) =
    (clock st + match initialValue h with
                | InitValue _ => 0
                | InitProducer _ => if parses h st then 2 else 1
                end)%nat.
Proof.
  rewrite readValue_run. simpl. split; [reflexivity |].
  destruct (parses h st), (initialValue h); simpl; lia.
Qed.

(** X10.  A read reports at most once: nothing when the value comes from the
    store, when the key is absent or its text empty, and on the server; a
    [console.warn] of line 114 when the storage area cannot be reached or a
    custom deserializer throws; a [console.error] of line 90, and no warning,
    when [JSON.parse] fails. *)
Theorem read_reporting (h : Hook) (st : State) :
  console (snd (readValue h st)) = (console st ++ read_reports h st)%list /\
  (length (read_reports h st) <= 1)%nat /\
  (window st = None -> read_reports h st = []) /\
  (forall raw r, stored_text st (key h) = Some raw ->
                 decode (options h) raw = Normal r ->
                 read_reports h st = []) /\
  (forall e, ErrorParsing e ∈ read_reports h st ->
             opt_deserializer (options h) = None /\
             exists raw, stored_text st (key h) = Some raw /\
                         JSON_parse raw = Throw e).
Proof.
  rewrite readValue_run. simpl. split; [reflexivity |].
  unfold read_reports, stored_text.
  destruct (window st) as [w |].
  2:{ split; [simpl; lia |]. split; [reflexivity |].
      split; [reflexivity |]. intros e0 He. inversion He. }
  destruct (access_denied (sessionStorage w)).
  { split; [simpl; lia |]. split; [discriminate |]. split; [discriminate |].
    intros e0 He. apply list_elem_of_singleton in He. discriminate. }
  destruct (items (sessionStorage w) !! key h) as [[| c rest] |].
  1,3: split; [simpl; lia |]; split; [reflexivity |];
       split; [reflexivity |]; intros e0 He; inversion He.
  remember (String c rest) as raw eqn:Eraw.
  destruct (decode (options h) raw) as [r | e] eqn:Edec.
  { split; [simpl; lia |]. split; [reflexivity |]. split; [reflexivity |].
    intros e0 He. inversion He. }
  unfold decode in Edec.
  destruct (opt_deserializer (options h)) as [custom |] eqn:Eo.
  - split; [simpl; lia |]. split; [discriminate |]. split.
    + intros raw' r [= <-]. unfold decode. rewrite Eo. congruence.
    + intros e0 He. apply list_elem_of_singleton in He. discriminate.
  - split; [simpl; lia |]. split; [discriminate |]. split.
    + intros raw' r [= <-]. unfold decode. rewrite Eo. congruence.
    + intros e0 He. apply list_elem_of_singleton in He. injection He as ->.
      split; [reflexivity |]. exists raw. split; [reflexivity |].
      destruct (String.eqb raw "undefined"); [discriminate | exact Edec].
Qed.

(** The window after a setter call: as before, or with the text stored under
    the hook's key and one change event more. *)
Lemma setValue_window (h : Hook) (value : SetStateAction) (st : State) :
  exists st',
    setValue h value st = (Normal tt, st') /\
    (window st' = window st \/
     exists w text,
       window st = Some w /\
       window st' = Some (after_dispatch (changeEvent h)
                            (after_store (key h) text w))).
Proof.
  destruct (warnIfServer_spec h st) as (st0 & E0 & Hw0 & _).
  unfold setValue, bind at 1, try_catch. rewrite E0.
  unfold bind at 1.
  destruct (resolveAction_frame h value st0) as (c & st1 & E1 & Hw1 & _).
  rewrite E1. destruct c as [nv | e].
  2:{ unfold console_log. eexists. split; [reflexivity |]. left. simpl.
      congruence. }
  unfold bind at 1.
  destruct (persist h nv st1) as [[[] | e] st2] eqn:Ep.
  - apply persist_inv in Ep as (w & text & Ew & _ & _ & _ & ->).
    unfold bind, setStoredValue, window_dispatchEvent. simpl.
    eexists. split; [reflexivity |]. right. exists w, (string_argument text).
    split; [congruence | reflexivity].
  - apply persist_throw in Ep as ->. unfold console_log.
    eexists. split; [reflexivity |]. left. simpl. congruence.
Qed.

Lemma slot_after_write (k : string) (h : Hook) (text : string) (w : Window)
    (st st' : State) :
  window st = Some w ->
  window st' = Some (after_dispatch (changeEvent h) (after_store (key h) text w)) ->
  slot st' k = if decide (k = key h) then Some text else slot st k.
Proof.
  intros Ew Ew'. unfold slot. rewrite Ew, Ew'. simpl.
  destruct (decide (k = key h)) as [-> | Hne].
  - apply lookup_insert_eq.
  - now apply lookup_insert_ne.
Qed.

(** X2.  A setter call leaves every other key of the storage area as it was,
    never removes the entry of its own key, and neither creates nor loses the
    window. *)
Theorem setValue_own_key_only (h : Hook) (value : SetStateAction) (st : State) :
  (forall k, k <> key h ->
     slot (snd (setValue h value st)) k = slot st k) /\
  (is_Some (slot st (key h)) ->
     is_Some (slot (snd (setValue h value st)) (key h))) /\
  (window (snd (setValue h value st)) = None <-> window st = None).
Proof.
  destruct (setValue_window h value st) as (st' & E & [Hw | Hwritten]).
  - rewrite E. simpl. unfold slot. rewrite Hw. repeat split; auto.
  - destruct Hwritten as (w & text & Ew & Ew'). rewrite E. simpl.
    repeat split.
    + intros k Hk. rewrite (slot_after_write k h text w st st' Ew Ew').
      now destruct (decide (k = key h)).
    + intros _. rewrite (slot_after_write (key h) h text w st st' Ew Ew').
      destruct (decide (key h = key h)); [eauto | contradiction].
    + rewrite Ew'. discriminate.
    + rewrite Ew. discriminate.
Qed.




Lemma keyEffect_run (h : Hook) (st : State) :
  exists st',
    keyEffect h st = (Normal tt, st') /\
    storedValue st' = read_outcome h (clock st) (stored_text st (key h)) /\
    window st' = window st /\
    (clock st <= clock st')%nat.
Proof.
  unfold keyEffect, bind, setStoredValue. rewrite readValue_run.
  eexists. split; [reflexivity |]. simpl. split; [reflexivity |].
  destruct (parses h st), (initialValue h); simpl; repeat split; lia.
Qed.




(** X3.  Two hooks bound to the same key: when one of them gets a value
    stored, the event it dispatches makes the other re-read, and the other's
    cached value becomes its own decoding of the text that was stored. *)
Theorem cross_instance_sync (writer reader : Hook) (v r cached : Value)
    (st : State) (text : option string) :
  key reader = key writer ->
  fst (persist writer v st) = Normal tt ->
  serializer (options writer) v = Normal text ->
  string_argument text <> "" ->
  decode (options reader) (string_argument text) = Normal r ->
  let st1 := snd (setValue writer (NewValue v) st) in
  last (published st1) = Some (changeEvent writer) /\
  storedValue
    (snd (handleStorageChange reader (changeEvent writer)
            (with_storedValue cached st1))) = r.
Proof.
  intros Hkey Hok Hser Hne Hdec.
  destruct (persist writer v st) as [[[] | e] st2] eqn:Ep; [| discriminate].
  apply persist_inv in Ep as (w & text' & Ew & Ed & Hser' & Hacc & _).
  assert (text' = text) as -> by congruence.
  rewrite (setValue_NewValue_success writer v st w text Ew Ed Hser Hacc).
  simpl. split.
  - unfold published. simpl. apply last_snoc.
  - rewrite handleStorageChange_rereads
      by (right; right; simpl; now rewrite Hkey).
    destruct (keyEffect_run reader
                (with_storedValue cached
                   (with_window
                      (Some (after_dispatch (changeEvent writer)
                               (after_store (key writer)
                                  (string_argument text) w)))
                      (with_storedValue v st))))
      as (st' & E & Hv & _).
    rewrite E. simpl. rewrite Hv.
    unfold stored_text. simpl. rewrite Ed, Hkey, lookup_insert_eq.
    unfold read_outcome.
    destruct (string_argument text) as [| c rest]; [contradiction |].
    now rewrite Hdec.
Qed.

Lemma setValue_client (h : Hook) (value : SetStateAction) (st : State)
    (w : Window) :
  window st = Some w ->
  setValue h value st =
  try_catch
    (newValue <- resolveAction h value ;;
     persist h newValue ;;
     setStoredValue newValue ;;
     window_dispatchEvent (changeEvent h))
    (fun error => console_log (WarnSetting (key h) error)) st.
Proof.
  intros Ew. unfold setValue, bind at 1.
  now rewrite (warnIfServer_client h st w Ew).
Qed.

Lemma readValue_server (h : Hook) (st : State) :
  window st = None ->
  readValue h st =
  (Normal (initial_at (initialValue h) (clock st)), tick (initialValue h) st).
Proof.
  intros Ew. unfold readValue, bind. rewrite evalInitialValue_run.
  unfold IS_SERVER. destruct (tick_frame (initialValue h) st) as (-> & _).
  now rewrite Ew.
Qed.

Lemma persist_server (h : Hook) (nv : Value) (st : State) :
  window st = None -> persist h nv st = (Throw ReferenceError, st).
Proof.
  intros Ew. unfold persist, bind, window_sessionStorage. now rewrite Ew.
Qed.

(** A setter call without a window. *)
Lemma setValue_server_run (h : Hook) (value : SetStateAction) (st : State) :
  window st = None ->
  setValue h value st =
  match resolveAction h value
          (with_console (console st ++ [WarnNotClient (key h)]) st) with
  | (Normal _, st1) =>
      (Normal tt,
       with_console (console st1 ++ [WarnSetting (key h) ReferenceError]) st1)
  | (Throw e, st1) =>
      (Normal tt, with_console (console st1 ++ [WarnSetting (key h) e]) st1)
  end.
Proof.
  intros Ew. unfold setValue, warnIfServer, bind at 1 2, IS_SERVER.
  rewrite Ew. unfold console_log at 1. unfold try_catch, bind at 1.
  set (st0 := with_console (console st ++ [WarnNotClient (key h)]) st).
  destruct (resolveAction_frame h value st0) as (c & st1 & E1 & Hw1 & _).
  rewrite E1. destruct c as [nv | e]; [| reflexivity].
  unfold bind at 1. rewrite (persist_server h nv st1) by (rewrite Hw1; exact Ew).
  reflexivity.
Qed.

(** X4.  A setter call with an updater is a read followed by a setter call
    with what the updater makes of the value read: the updater is handed
    [readValue()], not the cached value. *)
Theorem updater_is_read_then_write (h : Hook) (f : Value -> Completion Value)
    (r nv : Value) (st : State) :
  fst (readValue h st) = Normal r ->
  f r = Normal nv ->
  setValue h (Updater f) st = setValue h (NewValue nv) (snd (readValue h st)).
Proof.
  intros Hread Hf.
  destruct (window st) as [w |] eqn:Ew.
  - destruct (readValue_spec h st) as (v & st1 & E & Hw & _).
    rewrite E in Hread |- *. simpl in Hread. injection Hread as ->. simpl.
    rewrite (setValue_client h _ st w Ew).
    rewrite (setValue_client h _ st1 w) by congruence.
    unfold try_catch, bind at 1 5. simpl. unfold bind at 1.
    rewrite E. unfold lift, ret. now rewrite Hf.
  - revert Hread. rewrite (readValue_server h st Ew). simpl. intros [= <-].
    rewrite (setValue_server_run h _ st Ew).
    rewrite (setValue_server_run h _ (tick (initialValue h) st))
      by (destruct (initialValue h); exact Ew).
    simpl. unfold bind. rewrite readValue_server by exact Ew.
    unfold lift, ret. simpl. rewrite Hf.
    destruct (initialValue h); reflexivity.
Qed.




Lemma setValue_NewValue_failure (h : Hook) (v : Value) (st st' : State)
    (w : Window) (e : Exn) :
  window st = Some w ->
  persist h v st = (Throw e, st') ->
  setValue h (NewValue v) st =
  (Normal tt, with_console (console st ++ [WarnSetting (key h) e]) st).
Proof.
  intros Ew Ep. pose proof (persist_throw h v st st' e Ep) as ->.
  rewrite (setValue_client h _ st w Ew).
  unfold try_catch, bind at 1. simpl. unfold bind at 1.
  now rewrite Ep.
Qed.

(** Two values with the same serialization: the setter calls differ only in
    the value they cache. *)
Lemma setValue_same_text (h : Hook) (v1 v2 cached : Value) (st : State) :
  serializer (options h) v1 = serializer (options h) v2 ->
  with_storedValue cached (snd (setValue h (NewValue v1) st))
  = with_storedValue cached (snd (setValue h (NewValue v2) st)).
Proof.
  intros Hser.
  destruct (window st) as [w |] eqn:Ew.
  - assert (persist h v1 st = persist h v2 st) as Hp
      by (unfold persist; now rewrite Hser).
    destruct (persist h v2 st) as [[[] | e] st2] eqn:Ep.
    + apply persist_inv in Ep as (w' & text & Ew' & Ed & Hser2 & Hacc & _).
      assert (w' = w) as -> by congruence.
      assert (serializer (options h) v1 = Normal text) as Hser1
        by (rewrite Hser; exact Hser2).
      rewrite (setValue_NewValue_success h v1 st w text Ew Ed Hser1 Hacc).
      rewrite (setValue_NewValue_success h v2 st w text Ew Ed Hser2 Hacc).
      reflexivity.
    + rewrite (setValue_NewValue_failure h v1 st st2 w e Ew Hp).
      rewrite (setValue_NewValue_failure h v2 st st2 w e Ew Ep).
      reflexivity.
  - rewrite !(setValue_server_run h _ st Ew). reflexivity.
Qed.

(** X7.  The default serializer stores a [Set] as the array of its elements
    and a [Map] as the object of its entries, so that, whatever the
    deserializer, the window after the setter call and every later read are
    the same for the collection and for its plain counterpart: no
    deserializer reads both back as what they were. *)
Theorem collections_stored_as_plain_data (h : Hook) (st : State) :
  opt_serializer (options h) = None ->
  (forall elems,
     let as_set := snd (setValue h (NewValue (VSet elems)) st) in
     let as_array := snd (setValue h (NewValue (Array_from elems)) st) in
     window as_set = window as_array /\
     fst (readValue h as_set) = fst (readValue h as_array) /\
     ~ (fst (readValue h as_set) = Normal (VSet elems) /\
        fst (readValue h as_array) = Normal (Array_from elems))) /\
  (forall entries,
     let as_map := snd (setValue h (NewValue (VMap entries)) st) in
     let as_object :=
       snd (setValue h (NewValue (Object_fromEntries entries)) st) in
     window as_map = window as_object /\
     fst (readValue h as_map) = fst (readValue h as_object) /\
     ~ (fst (readValue h as_map) = Normal (VMap entries) /\
        fst (readValue h as_object) = Normal (Object_fromEntries entries))).
Proof.
  intros Hnone.
  assert (forall v1 v2,
            serializer (options h) v1 = serializer (options h) v2 ->
            window (snd (setValue h (NewValue v1) st))
            = window (snd (setValue h (NewValue v2) st)) /\
            fst (readValue h (snd (setValue h (NewValue v1) st)))
            = fst (readValue h (snd (setValue h (NewValue v2) st)))) as Hsame.
  { intros v1 v2 Hser.
    pose proof (setValue_same_text h v1 v2 VNull st Hser) as Heq.
    assert (window (snd (setValue h (NewValue v1) st))
            = window (snd (setValue h (NewValue v2) st))) as Hw
      by exact (f_equal window Heq).
    split; [exact Hw |].
    rewrite !readValue_run. simpl.
    unfold stored_text. rewrite Hw.
    now rewrite (f_equal clock Heq : clock (snd (setValue h (NewValue v1) st))
                                     = clock (snd (setValue h (NewValue v2) st))). }
  split.
  - intros elems.
    destruct (Hsame (VSet elems) (Array_from elems)) as [Hw Hr];
      [unfold serializer; now rewrite Hnone |].
    simpl. repeat split; auto. intros [Hs Ha]. rewrite Hr, Ha in Hs.
    discriminate.
  - intros entries.
    destruct (Hsame (VMap entries) (Object_fromEntries entries)) as [Hw Hr];
      [unfold serializer; now rewrite Hnone |].
    simpl. repeat split; auto. intros [Hm Ho]. rewrite Hr, Ho in Hm.
    discriminate.
Qed.

Lemma fold_CreateDataProperty_keys (entries : list (Value * Value))
    (acc : list (string * Value)) :
  fold_left (fun o e => CreateDataProperty o (ToString (fst e)) (snd e))
    (List.map (fun e => (VStr (ToString (fst e)), snd e)) entries) acc
  = fold_left (fun o e => CreateDataProperty o (ToString (fst e)) (snd e))
      entries acc.
Proof.
  revert acc. induction entries as [| e entries IH]; intros acc;
    [reflexivity |].
  simpl. apply IH.
Qed.

(** X8.  The default serializer sees the keys of a [Map] only through their
    string form: replacing every key by its string (the number [1] by the
    string ["1"]) gives the same text. *)
Theorem map_keys_stored_as_strings (o : Options)
    (entries : list (Value * Value)) :
  opt_serializer o = None ->
  serializer o (VMap (List.map (fun e => (VStr (ToString (fst e)), snd e))
                        entries))
  = serializer o (VMap entries).
Proof.
  intros Hnone. unfold serializer. rewrite Hnone. f_equal.
  unfold Object_fromEntries. f_equal. apply fold_CreateDataProperty_keys.
Qed.

(** X11.  Reading again changes nothing when nothing was stored in between:
    for a hook whose initial value is a plain value, or under whose key a
    text that decodes is found, the key effect run twice caches what it
    caches run once. *)
Theorem reread_idempotent (h : Hook) (st : State) :
  ((exists x, initialValue h = InitValue x) \/
   exists raw r, stored_text st (key h) = Some raw /\ raw <> "" /\
                 decode (options h) raw = Normal r) ->
  storedValue (snd (keyEffect h (snd (keyEffect h st))))
  = storedValue (snd (keyEffect h st)).
Proof.
  intros Hsettled.
  destruct (keyEffect_run h st) as (st1 & E1 & Hv1 & Hw1 & _).
  rewrite E1. simpl.
  destruct (keyEffect_run h st1) as (st2 & E2 & Hv2 & _).
  rewrite E2. simpl. rewrite Hv2, Hv1.
  unfold stored_text. rewrite Hw1. fold (stored_text st (key h)).
  unfold read_outcome.
  destruct Hsettled as [[x Hx] | (raw & r & Hraw & Hne & Hdec)].
  - rewrite Hx. reflexivity.
  - rewrite Hraw. destruct raw as [| c rest]; [contradiction |].
    now rewrite Hdec.
Qed.






(** X14.  Values are kept per key.  After a value is stored under the hook's
    key, re-binding the hook to another key under which nothing is stored
    and running the key effect discards the cached value for the initial
    one; binding it back and running the effect again brings back the
    decoding of what was stored. *)
Theorem values_kept_per_key (h : Hook) (k2 : string) (v r : Value)
    (st : State) (text : option string) :
  k2 <> key h ->
  slot st k2 = None ->
  fst (persist h v st) = Normal tt ->
  serializer (options h) v = Normal text ->
  string_argument text <> "" ->
  decode (options h) (string_argument text) = Normal r ->
  let written := snd (setValue h (NewValue v) st) in
  let away := snd (keyEffect (rekey k2 h) written) in
  let back := snd (keyEffect h away) in
  storedValue away = initial_at (initialValue h) (clock st) /\
  storedValue back = r.
Proof.
  intros Hk2 Hslot Hok Hser Hne Hdec.
  destruct (persist h v st) as [[[] | e] st2] eqn:Ep; [| discriminate].
  apply persist_inv in Ep as (w & text' & Ew & Ed & Hser' & Hacc & _).
  assert (text' = text) as -> by congruence.
  rewrite (setValue_NewValue_success h v st w text Ew Ed Hser Hacc). simpl.
  set (written := with_window
                    (Some (after_dispatch (changeEvent h)
                             (after_store (key h) (string_argument text) w)))
                    (with_storedValue v st)).
  destruct (keyEffect_run (rekey k2 h) written) as (away & E1 & Hv1 & Hw1 & _).
  rewrite E1. simpl.
  destruct (keyEffect_run h away) as (back & E2 & Hv2 & _).
  rewrite E2. simpl. split.
  - rewrite Hv1. unfold stored_text. simpl. rewrite Ed.
    rewrite lookup_insert_ne by congruence.
    unfold slot in Hslot. rewrite Ew in Hslot. rewrite Hslot. reflexivity.
  - rewrite Hv2. unfold stored_text. rewrite Hw1. simpl.
    rewrite Ed, lookup_insert_eq. unfold read_outcome.
    destruct (string_argument text) as [| c rest]; [contradiction |].
    now rewrite Hdec.
Qed.



(** X16.  Hydration: the first render shows the initial value, whatever the
    storage area holds; the stored value is cached by the effect that
    follows, and mounting leaves the window as it was. *)
Theorem first_render_shows_initial (h : Hook) (st : State) (raw : string)
    (r : Value) :
  stored_text st (key h) = Some raw ->
  raw <> "" ->
  decode (options h) raw = Normal r ->
  storedValue (snd (useState h st)) = initial_at (initialValue h) (clock st) /\
  window (snd (useState h st)) = window st /\
  fst (mount h st) = Normal tt /\
  storedValue (snd (mount h st)) = r /\
  window (snd (mount h st)) = window st.
Proof.
  intros Hraw Hne Hdec.
  assert (useState h st
          = (Normal tt,
             with_storedValue (initial_at (initialValue h) (clock st))
               (tick (initialValue h) st))) as Eu.
  { unfold useState, bind. now rewrite evalInitialValue_run. }
  destruct (tick_frame (initialValue h) st) as (Hw & _).
  set (st0 := with_storedValue (initial_at (initialValue h) (clock st))
                (tick (initialValue h) st)) in *.
  assert (mount h st = keyEffect h st0) as ->
    by (unfold mount; unfold bind at 1; now rewrite Eu).
  rewrite Eu.
  assert (window st0 = window st) as Hw0 by exact Hw.
  destruct (keyEffect_run h st0) as (st1 & E & Hv & Hw1 & _).
  rewrite E. simpl.
  split; [reflexivity |]. split; [exact Hw |]. split; [reflexivity |].
  split; [| now rewrite Hw1].
  rewrite Hv. unfold stored_text in *. rewrite Hw0, Hraw.
  unfold read_outcome. destruct raw as [| c rest]; [contradiction |].
  now rewrite Hdec.
Qed.

End MoreProperties.

(** ** The further properties at work *)

(** X1 at work: two tabs that differ in the cached value, in the console and
    in what they hold under another key read the same value under ["k"]. *)
Lemma read_decided_by_own_slot_witness :
  (clock (client VNull (holding "k" "1"))
   = clock (with_console [WarnNotClient "k"]
              (client (VStr "old") (store "other" "2" (holding "k" "1")))) /\
   stored_text (client VNull (holding "k" "1")) (key plain_hook)
   = stored_text
       (with_console [WarnNotClient "k"]
          (client (VStr "old") (store "other" "2" (holding "k" "1"))))
       (key plain_hook)) /\
  fst (readValue plain_hook (client VNull (holding "k" "1")))
  = fst (readValue plain_hook
           (with_console [WarnNotClient "k"]
              (client (VStr "old") (store "other" "2" (holding "k" "1"))))).
Proof.
  assert (clock (client VNull (holding "k" "1"))
          = clock (with_console [WarnNotClient "k"]
                     (client (VStr "old")
                        (store "other" "2" (holding "k" "1"))))) as H1
    by reflexivity.
  assert (stored_text (client VNull (holding "k" "1")) (key plain_hook)
          = stored_text
              (with_console [WarnNotClient "k"]
                 (client (VStr "old") (store "other" "2" (holding "k" "1"))))
              (key plain_hook)) as H2 by reflexivity.
  split; [auto |].
  exact (read_decided_by_own_slot plain_hook _ _ H1 H2).
Defined.

(** X2 at work: a setter call under ["k"] leaves the entry of ["other"]. *)
Lemma setValue_own_key_only_witness :
  "other" <> key plain_hook /\
  slot (snd (setValue plain_hook (NewValue mixed_array)
               (client VNull (holding "other" "2")))) "other"
  = Some "2".
Proof.
  assert ("other" <> key plain_hook) as H1 by discriminate.
  split; [exact H1 |].
  exact (proj1 (setValue_own_key_only plain_hook (NewValue mixed_array)
                  (client VNull (holding "other" "2"))) "other" H1).
Defined.

(** X3 at work: a hook with the default codec writes an array; a hook with
    the verbatim codec on the same key ends up caching the text. *)
Lemma cross_instance_sync_witness :
  (key verbatim_hook = key plain_hook /\
   fst (persist plain_hook mixed_array (client VNull open_storage)) = Normal tt /\
   serializer (options plain_hook) mixed_array = Normal (Some "[1,true,null]") /\
   string_argument (Some "[1,true,null]") <> "" /\
   decode (options verbatim_hook) (string_argument (Some "[1,true,null]"))
   = Normal (VStr "[1,true,null]")) /\
  last (published
          (snd (setValue plain_hook (NewValue mixed_array)
                  (client VNull open_storage))))
  = Some (changeEvent plain_hook) /\
  storedValue
    (snd (handleStorageChange verbatim_hook (changeEvent plain_hook)
            (with_storedValue (VStr "old")
               (snd (setValue plain_hook (NewValue mixed_array)
                       (client VNull open_storage))))))
  = VStr "[1,true,null]".
Proof.
  assert (key verbatim_hook = key plain_hook) as H0 by reflexivity.
  assert (fst (persist plain_hook mixed_array (client VNull open_storage))
          = Normal tt) as H1 by reflexivity.
  assert (serializer (options plain_hook) mixed_array
          = Normal (Some "[1,true,null]")) as H2 by reflexivity.
  assert (string_argument (Some "[1,true,null]") <> "") as H3 by discriminate.
  assert (decode (options verbatim_hook)
            (string_argument (Some "[1,true,null]"))
          = Normal (VStr "[1,true,null]")) as H4 by reflexivity.
  split; [auto |].
  exact (cross_instance_sync plain_hook verbatim_hook mixed_array
           (VStr "[1,true,null]") (VStr "old") (client VNull open_storage)
           (Some "[1,true,null]") H0 H1 H2 H3 H4).
Defined.

(** X4 at work: incrementing the stored [1] while [null] is cached. *)
Lemma updater_is_read_then_write_witness :
  (fst (readValue plain_hook (client VNull (holding "k" "1")))
   = Normal (VNum 1) /\
   increment (VNum 1) = Normal (VNum 2)) /\
  setValue plain_hook (Updater increment) (client VNull (holding "k" "1"))
  = setValue plain_hook (NewValue (VNum 2))
      (snd (readValue plain_hook (client VNull (holding "k" "1")))).
Proof.
  assert (fst (readValue plain_hook (client VNull (holding "k" "1")))
          = Normal (VNum 1)) as H1 by reflexivity.
  assert (increment (VNum 1) = Normal (VNum 2)) as H2 by reflexivity.
  split; [auto |].
  exact (updater_is_read_then_write plain_hook increment (VNum 1) (VNum 2)
           (client VNull (holding "k" "1")) H1 H2).
Defined.





(** X7 at work: the set of 1 and 2 and the array of 1 and 2 leave the same
    window. *)
Lemma collections_stored_as_plain_data_witness :
  opt_serializer (options plain_hook) = None /\
  window (snd (setValue plain_hook (NewValue two_numbers)
                 (client VNull open_storage)))
  = window (snd (setValue plain_hook (NewValue (VArr [VNum 1; VNum 2]))
                   (client VNull open_storage))).
Proof.
  assert (opt_serializer (options plain_hook) = None) as H1 by reflexivity.
  split; [exact H1 |].
  exact (proj1 (proj1 (collections_stored_as_plain_data plain_hook
                         (client VNull open_storage) H1)
                  [VNum 1; VNum 2])).
Defined.

(** X8 at work: the key [1] and the key ["1"] give the same text. *)
Lemma map_keys_stored_as_strings_witness :
  opt_serializer default_options = None /\
  serializer default_options (VMap [(VStr "1", VBool true)])
  = serializer default_options (VMap [(VNum 1, VBool true)]).
Proof.
  assert (opt_serializer default_options = None) as H1 by reflexivity.
  split; [exact H1 |].
  exact (map_keys_stored_as_strings default_options [(VNum 1, VBool true)] H1).
Defined.

(** X10 at work: a text that parses is read without a report. *)
Lemma read_reporting_witness :
  (stored_text (client VNull (holding "k" "1")) (key plain_hook) = Some "1" /\
   decode (options plain_hook) "1" = Normal (VNum 1)) /\
  read_reports plain_hook (client VNull (holding "k" "1")) = [].
Proof.
  assert (stored_text (client VNull (holding "k" "1")) (key plain_hook)
          = Some "1") as H1 by reflexivity.
  assert (decode (options plain_hook) "1" = Normal (VNum 1)) as H2
    by reflexivity.
  split; [auto |].
  destruct (read_reporting plain_hook (client VNull (holding "k" "1")))
    as (_ & _ & _ & Hquiet & _).
  exact (Hquiet "1" (VNum 1) H1 H2).
Defined.

(** X11 at work: a producer as initial value, and a stored text that
    decodes. *)
Lemma reread_idempotent_witness :
  (exists raw r,
     stored_text (client VNull (holding "k" "1")) (key counting_hook)
     = Some raw /\ raw <> "" /\
     decode (options counting_hook) raw = Normal r) /\
  storedValue
    (snd (keyEffect counting_hook
            (snd (keyEffect counting_hook (client VNull (holding "k" "1"))))))
  = storedValue
      (snd (keyEffect counting_hook (client VNull (holding "k" "1")))).
Proof.
  assert (exists raw r,
            stored_text (client VNull (holding "k" "1")) (key counting_hook)
            = Some raw /\ raw <> "" /\
            decode (options counting_hook) raw = Normal r) as H1.
  { exists "1", (VNum 1). repeat split. discriminate. }
  split; [exact H1 |].
  exact (reread_idempotent counting_hook (client VNull (holding "k" "1"))
           (or_intror H1)).
Defined.



(** X14 at work: the array stored under ["k"] is back after a stay at
    ["other"]. *)
Lemma values_kept_per_key_witness :
  ("other" <> key plain_hook /\
   slot (client VNull open_storage) "other" = None /\
   fst (persist plain_hook mixed_array (client VNull open_storage)) = Normal tt /\
   serializer (options plain_hook) mixed_array = Normal (Some "[1,true,null]") /\
   string_argument (Some "[1,true,null]") <> "" /\
   decode (options plain_hook) (string_argument (Some "[1,true,null]"))
   = Normal mixed_array) /\
  storedValue
    (snd (keyEffect (rekey "other" plain_hook)
            (snd (setValue plain_hook (NewValue mixed_array)
                    (client VNull open_storage)))))
  = VNull /\
  storedValue
    (snd (keyEffect plain_hook
            (snd (keyEffect (rekey "other" plain_hook)
                    (snd (setValue plain_hook (NewValue mixed_array)
                            (client VNull open_storage)))))))
  = mixed_array.
Proof.
  assert ("other" <> key plain_hook) as H0 by discriminate.
  assert (slot (client VNull open_storage) "other" = None) as H1
    by reflexivity.
  assert (fst (persist plain_hook mixed_array (client VNull open_storage))
          = Normal tt) as H2 by reflexivity.
  assert (serializer (options plain_hook) mixed_array
          = Normal (Some "[1,true,null]")) as H3 by reflexivity.
  assert (string_argument (Some "[1,true,null]") <> "") as H4 by discriminate.
  assert (decode (options plain_hook) (string_argument (Some "[1,true,null]"))
          = Normal mixed_array) as H5 by reflexivity.
  split; [repeat split; auto |].
  exact (values_kept_per_key plain_hook "other" mixed_array mixed_array
           (client VNull open_storage) (Some "[1,true,null]")
           H0 H1 H2 H3 H4 H5).
Defined.


(** X16 at work: with [1] stored, the first render shows [null] and the
    effect brings [1]. *)
Lemma first_render_shows_initial_witness :
  (stored_text (client VUndefined (holding "k" "1")) (key plain_hook)
   = Some "1" /\
   "1" <> "" /\
   decode (options plain_hook) "1" = Normal (VNum 1)) /\
  storedValue (snd (useState plain_hook (client VUndefined (holding "k" "1"))))
  = VNull /\
  storedValue (snd (mount plain_hook (client VUndefined (holding "k" "1"))))
  = VNum 1.
Proof.
  assert (stored_text (client VUndefined (holding "k" "1")) (key plain_hook)
          = Some "1") as H1 by reflexivity.
  assert ("1" <> "") as H2 by discriminate.
  assert (decode (options plain_hook) "1" = Normal (VNum 1)) as H3
    by reflexivity.
  split; [auto |].
  destruct (first_render_shows_initial plain_hook
              (client VUndefined (holding "k" "1")) "1" (VNum 1) H1 H2 H3)
    as (Hfirst & _ & _ & Hthen & _).
  split; [exact Hfirst | exact Hthen].
Defined.
